(** * oneDriveRag: the retrieval-augmented pipeline of [main.py]

    A shallow embedding of the functions of [main.py] and the properties
    its specification states about them.  Python values are modelled as
    the interpreter has them: integers as [Z], strings as [string] (code
    points below 256), lists as [list], dicts as association lists in
    insertion order, a raised exception as the [Err] branch of [result].
    Floating-point arithmetic and the external services are parameters.
    Logging is left out.  An endpoint is modelled up to the response object
    it returns or the exception it raises; of the rendering of a response
    the model keeps the exception [JSONResponse] raises, when it is built,
    on a content that holds a float that is not finite. *)

From stdpp Require Import base list strings pretty gmap.
From Stdlib Require Import ZArith Lia Ascii Floats.SpecFloat.

Local Open Scope string_scope.
Local Open Scope list_scope.
Local Open Scope Z_scope.

(** ** Exceptions and results *)

(** The exceptions the program raises or lets through.  All of them are
    subclasses of Python's [Exception], so [except Exception] catches each. *)
Inductive exn : Type :=
  | HTTPException (status_code : Z) (detail : string)
  | ValueError (msg : string)
  | TypeError (msg : string)
  | KeyError (key : string)
  | IndexError (msg : string)
  | AttributeError (msg : string)
  | OverflowError (msg : string)
  | JSONDecodeError (msg : string)
  | ExternalError (msg : string).

Inductive result (A : Type) : Type :=
  | Ok (a : A)
  | Err (e : exn).
Arguments Ok {A} a.
Arguments Err {A} e.

#[global] Instance result_ret : MRet result := fun _ a => Ok a.
#[global] Instance result_bind : MBind result := fun _ _ f m =>
  match m with
  | Ok a => f a
  | Err e => Err e
  end.

(** The computation returned, it did not raise. *)
Definition is_ok {A} (r : result A) : bool :=
  match r with Ok _ => true | Err _ => false end.

(** ** Python built-ins used by the program *)

Module Py.

(** [str.isspace] on the code points below 256. *)
Definition isspace (c : ascii) : bool :=
  let n := N_of_ascii c in
  ((9 <=? n) && (n <=? 13) || (28 <=? n) && (n <=? 32)
   || (n =? 133) || (n =? 160))%N.

(** [str.split()] with no separator: the maximal runs of characters that
    are not whitespace, in order.  [word] is the run read so far. *)
Fixpoint split_from (word : string) (s : string) : list string :=
  match s with
  | EmptyString =>
      match word with
      | EmptyString => []
      | _ => [word]
      end
  | String c s' =>
      if isspace c then
        match word with
        | EmptyString => split_from "" s'
        | _ => word :: split_from "" s'
        end
      else split_from (word +:+ String c "") s'
  end.

Definition split (s : string) : list string := split_from "" s.

(** [sep.join(ls)]. *)
Definition join (sep : string) (ls : list string) : string :=
  String.concat sep ls.

(** [len(l)]. *)
Definition len {A} (l : list A) : Z := Z.of_nat (length l).

(** [range(start, stop, step)] as the list of its items: the length is
    computed as CPython does, item [k] is [start + k * step]; a zero step
    raises [ValueError]. *)
Definition range_length (start stop step : Z) : Z :=
  let '(lo, hi, st) :=
    if 0 <? step then (start, stop, step) else (stop, start, - step) in
  if hi <=? lo then 0 else (hi - lo - 1) / st + 1.

Definition range (start stop step : Z) : result (list Z) :=
  if step =? 0 then Err (ValueError "range() arg 3 must not be zero")
  else Ok (map (fun k => start + Z.of_nat k * step)
               (seq 0 (Z.to_nat (range_length start stop step)))).

(** A slice bound adjusted to a sequence of length [n] (step 1): negative
    bounds count from the end, and both are clipped to [0 .. n]. *)
Definition adjust_index (n i : Z) : Z :=
  if i <? 0 then Z.max 0 (i + n) else Z.min i n.

(** [l[i:j]]. *)
Definition slice {A} (l : list A) (i j : Z) : list A :=
  let a := adjust_index (len l) i in
  let b := adjust_index (len l) j in
  take (Z.to_nat (b - a)) (drop (Z.to_nat a) l).

End Py.

(** ** The chunker *)

(** [chunk_text(text, chunk_size=500)]: the loop appends one chunk per item
    of [range(0, len(words), chunk_size // 2)]. *)
Definition chunk_text (text : string) (chunk_size : Z) : result (list string) :=
  let chunks := [] in
  let words := Py.split text in
  r ← Py.range 0 (Py.len words) (chunk_size / 2);
  Ok (fold_left
        (fun chunks i =>
           let chunk := Py.join " " (Py.slice words i (i + chunk_size)) in
           chunks ++ [chunk])
        r chunks).

(** The default of the parameter [chunk_size]. *)
Definition default_chunk_size : Z := 500.

(** *** Vocabulary for the properties of the chunker *)

(** No character of the string is whitespace. *)
Fixpoint no_space (s : string) : bool :=
  match s with
  | EmptyString => true
  | String c s' => negb (Py.isspace c) && no_space s'
  end.

(** A word: a non-empty string with no whitespace in it. *)
Definition is_word (s : string) : Prop := s <> "" /\ no_space s = true.

(** The window of [l] that starts at index [k * step] and holds at most
    [size] items. *)
Definition window {A} (l : list A) (size step k : nat) : list A :=
  take size (drop (k * step) l).

(** The words of a list of chunks, where every chunk after the first
    gives only its words past the first [overlap], those being words of
    its predecessor. *)
Definition rejoin (overlap : nat) (chunks : list string) : list string :=
  match chunks with
  | [] => []
  | c :: cs => Py.split c ++ concat (map (fun c' => drop overlap (Py.split c')) cs)
  end.

(** ** Python values *)

(** The interpreter's floating-point arithmetic, kept abstract: the type of
    floats, addition, the conversions [float(int)] and [float(str)] ([None]
    when they raise), the comparisons a dict uses on float keys, and the
    test that a float is neither an infinity nor a NaN. *)
Class PyFloat : Type := {
  float : Type;
  float_add : float -> float -> float;
  float_of_int : Z -> option float;
  float_of_string : string -> option float;
  float_eqb : float -> float -> bool;
  float_eq_int : float -> Z -> bool;
  float_is_finite : float -> bool
}.

(** A value as [json.loads] builds it, and as the endpoints hand it to
    [JSONResponse].  A dict keeps its entries in insertion order. *)
#[warnings="-register-all"]
Inductive pyval {PF : PyFloat} : Type :=
  | PNone
  | PBool (b : bool)
  | PInt (z : Z)
  | PFloat (f : float)
  | PStr (s : string)
  | PList (l : list pyval)
  | PDict (d : list (pyval * pyval)).

(** The string of one line feed. *)
Definition newline : string := String "010"%char "".

Section Values.
Context {PF : PyFloat}.

(** The entries of a dict, in insertion order. *)
Definition dict : Type := list (pyval * pyval).

(** Truth value of an object ([not x] is its negation). *)
Definition truthy (v : pyval) : bool :=
  match v with
  | PNone => false
  | PBool b => b
  | PInt z => negb (z =? 0)
  | PFloat f => negb (float_eq_int f 0)
  | PStr s => negb (String.eqb s "")
  | PList l => match l with [] => false | _ => true end
  | PDict d => match d with [] => false | _ => true end
  end.

(** [a == b] on the values that can be dict keys: [bool], [int] and
    [float] compare by numeric value, strings by content. *)
Definition key_eqb (a b : pyval) : bool :=
  match a, b with
  | PNone, PNone => true
  | PStr s, PStr t => String.eqb s t
  | PBool x, PBool y => Z.b2z x =? Z.b2z y
  | PBool x, PInt y => Z.b2z x =? y
  | PInt x, PBool y => x =? Z.b2z y
  | PInt x, PInt y => x =? y
  | PFloat f, PFloat g => float_eqb f g
  | PFloat f, PInt y => float_eq_int f y
  | PFloat f, PBool y => float_eq_int f (Z.b2z y)
  | PInt x, PFloat g => float_eq_int g x
  | PBool x, PFloat g => float_eq_int g (Z.b2z x)
  | _, _ => false
  end.

(** Lists and dicts are unhashable: using one as a key raises. *)
Definition hashable (k : pyval) : result unit :=
  match k with
  | PList _ => Err (TypeError "unhashable type: 'list'")
  | PDict _ => Err (TypeError "unhashable type: 'dict'")
  | _ => Ok ()
  end.

Fixpoint dict_lookup (d : dict) (k : pyval) : option pyval :=
  match d with
  | [] => None
  | (k', v) :: d' => if key_eqb k' k then Some v else dict_lookup d' k
  end.

(** [d[k] = v]: an equal key keeps its place and its key object; a new
    key is added at the end. *)
Fixpoint dict_store (d : dict) (k v : pyval) : dict :=
  match d with
  | [] => [(k, v)]
  | (k', v') :: d' =>
      if key_eqb k' k then (k', v) :: d' else (k', v') :: dict_store d' k v
  end.

(** [d.get(k, default)] on a dict. *)
Definition dict_get (d : dict) (k default : pyval) : result pyval :=
  _ ← hashable k;
  Ok (match dict_lookup d k with Some v => v | None => default end).

(** [d[k] = v] on a dict. *)
Definition dict_set (d : dict) (k v : pyval) : result dict :=
  _ ← hashable k;
  Ok (dict_store d k v).

(** [obj.get(k, default)]: only a dict has the method. *)
Definition py_get (obj k default : pyval) : result pyval :=
  match obj with
  | PDict d => dict_get d k default
  | _ => Err (AttributeError "object has no attribute 'get'")
  end.

(** An index into a sequence of length [n]: negative indices count from
    the end. *)
Definition seq_index (n i : Z) : result nat :=
  let j := if i <? 0 then i + n else i in
  if (0 <=? j) && (j <? n) then Ok (Z.to_nat j)
  else Err (IndexError "list index out of range").

Definition list_item (l : list pyval) (i : Z) : result pyval :=
  j ← seq_index (Py.len l) i;
  match l !! j with
  | Some v => Ok v
  | None => Err (IndexError "list index out of range")
  end.

(** [obj[k]] on a dict or a list. *)
Definition py_getitem (obj k : pyval) : result pyval :=
  match obj with
  | PDict d =>
      _ ← hashable k;
      match dict_lookup d k with
      | Some v => Ok v
      | None => Err (KeyError "key")
      end
  | PList l =>
      match k with
      | PInt i => list_item l i
      | PBool b => list_item l (Z.b2z b)
      | _ => Err (TypeError "list indices must be integers or slices")
      end
  | _ => Err (TypeError "object is not subscriptable")
  end.

Fixpoint chars (s : string) : list pyval :=
  match s with
  | EmptyString => []
  | String c s' => PStr (String c "") :: chars s'
  end.

(** The items a [for] loop or a comprehension draws from an object. *)
Definition py_iter (obj : pyval) : result (list pyval) :=
  match obj with
  | PList l => Ok l
  | PDict d => Ok (map fst d)
  | PStr s => Ok (chars s)
  | _ => Err (TypeError "object is not iterable")
  end.

Definition int_to_float (z : Z) : result float :=
  match float_of_int z with
  | Some f => Ok f
  | None => Err (OverflowError "int too large to convert to float")
  end.

(** The built-in [float(x)]. *)
Definition py_float (x : pyval) : result float :=
  match x with
  | PFloat f => Ok f
  | PInt z => int_to_float z
  | PBool b => int_to_float (Z.b2z b)
  | PStr s =>
      match float_of_string s with
      | Some f => Ok f
      | None => Err (ValueError "could not convert string to float")
      end
  | _ => Err (TypeError "float() argument must be a string or a real number")
  end.

(** [a + b]. *)
Definition py_add (a b : pyval) : result pyval :=
  match a, b with
  | PInt x, PInt y => Ok (PInt (x + y))
  | PInt x, PBool y => Ok (PInt (x + Z.b2z y))
  | PBool x, PInt y => Ok (PInt (Z.b2z x + y))
  | PBool x, PBool y => Ok (PInt (Z.b2z x + Z.b2z y))
  | PFloat f, PFloat g => Ok (PFloat (float_add f g))
  | PInt x, PFloat g => f ← int_to_float x; Ok (PFloat (float_add f g))
  | PBool x, PFloat g =>
      f ← int_to_float (Z.b2z x); Ok (PFloat (float_add f g))
  | PFloat f, PInt y => g ← int_to_float y; Ok (PFloat (float_add f g))
  | PFloat f, PBool y =>
      g ← int_to_float (Z.b2z y); Ok (PFloat (float_add f g))
  | PStr s, PStr t => Ok (PStr (s +:+ t))
  | PList l, PList m => Ok (PList (l ++ m))
  | _, _ => Err (TypeError "unsupported operand type(s) for +")
  end.

(** The built-in [sum(xs)]: a left fold of [+] from the integer [0]. *)
Fixpoint py_sum_from (acc : pyval) (xs : list pyval) : result pyval :=
  match xs with
  | [] => Ok acc
  | x :: xs' => acc' ← py_add acc x; py_sum_from acc' xs'
  end.

Definition py_sum (xs : list pyval) : result pyval := py_sum_from (PInt 0) xs.

(** [sep.join(xs)] on a list of objects: every item must be a [str]. *)
Fixpoint strings_of (xs : list pyval) : result (list string) :=
  match xs with
  | [] => Ok []
  | PStr s :: xs' => ss ← strings_of xs'; Ok (s :: ss)
  | _ :: _ => Err (TypeError "sequence item: expected str instance")
  end.

Definition py_join (sep : string) (xs : list pyval) : result string :=
  ss ← strings_of xs; Ok (Py.join sep ss).

(** A loop whose body may raise: the first exception ends it. *)
Fixpoint for_each {A S : Type} (body : S -> A -> result S)
    (items : list A) (s : S) : result S :=
  match items with
  | [] => Ok s
  | x :: items' => s' ← body s x; for_each body items' s'
  end.

(** A list comprehension whose element expression may raise. *)
Fixpoint comprehension {A B : Type} (f : A -> result B)
    (items : list A) : result (list B) :=
  match items with
  | [] => Ok []
  | x :: items' => y ← f x; ys ← comprehension f items'; Ok (y :: ys)
  end.

(** [try: body  except Exception: handler]. *)
Definition try_except {A : Type} (body : result A) (handler : exn -> result A)
    : result A :=
  match body with
  | Ok a => Ok a
  | Err e => handler e
  end.

(** ** HTTP responses *)

Record JSONResponse : Type := {
  content : pyval;
  status_code : Z
}.

(** What [json.dumps] raises, under [allow_nan=False], at an infinity or a
    NaN. *)
Definition out_of_range : exn :=
  ValueError "Out of range float values are not JSON compliant".

Definition json_float (f : float) : result unit :=
  if float_is_finite f then Ok () else Err out_of_range.

(** A key of a dict, as [json.dumps] writes it: a float key is written as
    a float value is. *)
Definition json_key (k : pyval) : result unit :=
  match k with
  | PFloat f => json_float f
  | PList _ | PDict _ =>
      Err (TypeError "keys must be str, int, float, bool or None")
  | _ => Ok ()
  end.

(** [json.dumps(content, allow_nan=False)], up to whether it raises: the
    items of a list and the entries of a dict are written in order, a key
    before its value, and the first float that is not finite ends it.  The
    bytes are not kept. *)
Fixpoint json_dumps (v : pyval) : result unit :=
  match v with
  | PFloat f => json_float f
  | PList l => for_each (fun _ x => json_dumps x) l ()
  | PDict d =>
      for_each (fun _ '(k, x) => _ ← json_key k; json_dumps x) d ()
  | _ => Ok ()
  end.

(** [JSONResponse(content=..., status_code=...)]: the constructor renders
    the content, with [json.dumps(content, allow_nan=False)], before the
    endpoint returns the response. *)
Definition JSONResponse_init (content : pyval) (status_code : Z)
    : result JSONResponse :=
  _ ← json_dumps content;
  Ok {| content := content; status_code := status_code |}.

(** The status the framework sends for the outcome of an endpoint: the
    response's own, the status of a raised [HTTPException], and 500 for any
    other exception. *)
Definition http_status (r : result JSONResponse) : Z :=
  match r with
  | Ok resp => status_code resp
  | Err (HTTPException s _) => s
  | Err _ => 500
  end.

End Values.

(** ** External collaborators *)

(** What [requests.post] returns: the status, the body, and the outcome of
    decoding the body with [response.json()]. *)
Record HTTPResponse {PF : PyFloat} : Type := {
  response_status_code : Z;
  response_text : string;
  response_json : result pyval
}.

(** The services and library calls the program relies on and does not
    define: the OneDrive loader (the page contents of the loaded
    documents), the sentence-embedding model's [encode], the index's
    nearest-neighbour [query], [requests.post], [str(e)] of an exception,
    [str] of an object that is not a string, and the configured API key. *)
Class External {PF : PyFloat} : Type := {
  onedrive_load : pyval -> list pyval -> result (list string);
  encode : list string -> result (list (list float));
  index_query :
    gmap string (list float * pyval) -> list (list float) -> Z -> result pyval;
  requests_post : string -> pyval -> pyval -> result HTTPResponse;
  exn_str : exn -> string;
  repr : pyval -> string;
  GEMINI_API_KEY : option string
}.

Section Pipeline.
Context {PF : PyFloat} {Ext : External}.

(** [str(x)], as an f-string formats a value. *)
Definition py_str (x : pyval) : string :=
  match x with
  | PStr s => s
  | _ => repr x
  end.

(** *** Retriever *)

(** [retrieve_similar_chunks(query, embedding_model, top_k=3)], reading the
    global [index]. *)
Definition retrieve_similar_chunks (index : gmap string (list float * pyval))
    (query : string)
    (embedding_model : list string -> result (list (list float)))
    (top_k : Z) : result string :=
  query_embedding ← embedding_model [query];
  results ← index_query index query_embedding top_k;
  matches ← py_get results (PStr "matches") (PList []);
  items ← py_iter matches;
  retrieved_texts ←
    comprehension
      (fun m => metadata ← py_getitem m (PStr "metadata");
                py_getitem metadata (PStr "text"))
      items;
  py_join newline retrieved_texts.

(** The default of the parameter [top_k]. *)
Definition default_top_k : Z := 3.

(** *** Answer composer *)

Definition gemini_url : string :=
  "https://generativelanguage.googleapis.com/v1beta/models/gemini-2.0-flash:generateContent?key="
  +:+ match GEMINI_API_KEY with Some k => k | None => "None" end.

Definition gemini_prompt (query context : string) : string :=
  "Give an overall answer for the following context:" +:+ newline
  +:+ context +:+ newline +:+ newline +:+ "User Question: " +:+ query
  +:+ ". if there is not context in the document written 'No answer found'".

Definition gemini_payload (query context : string) : pyval :=
  PDict [(PStr "contents",
          PList [PDict [(PStr "parts",
                         PList [PDict [(PStr "text",
                                        PStr (gemini_prompt query context))]])]])].

Definition gemini_headers : pyval :=
  PDict [(PStr "Content-Type", PStr "application/json")].

(** [query_gemini(query, context)]. *)
Definition query_gemini (query context : string) : result pyval :=
  let url := gemini_url in
  let payload := gemini_payload query context in
  let headers := gemini_headers in
  response ← requests_post url payload headers;
  if response_status_code response =? 200 then
    body ← response_json response;
    candidates ← py_getitem body (PStr "candidates");
    candidate ← py_getitem candidates (PInt 0);
    content ← py_getitem candidate (PStr "content");
    parts ← py_getitem content (PStr "parts");
    part ← py_getitem parts (PInt 0);
    py_getitem part (PStr "text")
  else
    Ok (PStr ("Error: " +:+ response_text response)).

(** *** Ingestion *)

(** The state outside the process that ingestion changes: the records of
    the vector index, by id, and the outcomes the index service will give
    to the coming [upsert] calls ([Some e]: the call raises [e]; when the
    list is used up, calls succeed). *)
Record World : Type := {
  index : gmap string (list float * pyval);
  faults : list (option exn)
}.

(** Computations that may raise and that act on the world. *)
Definition M (A : Type) : Type := World -> result A * World.

(** Returning a value, and running one computation after another: the
    first exception ends the sequence, with the world as it then is. *)
Definition M_ret {A} (a : A) : M A := fun w => (Ok a, w).

Definition M_bind {A B} (m : M A) (f : A -> M B) : M B := fun w =>
  match m w with
  | (Ok a, w') => f a w'
  | (Err e, w') => (Err e, w')
  end.

#[global] Instance M_mret : MRet M := @M_ret.
#[global] Instance M_mbind : MBind M := fun _ _ f m => M_bind m f.

(** A computation of the program proper, which leaves the world alone. *)
Definition lift {A} (r : result A) : M A := fun w => (r, w).

(** [raise e]. *)
Definition raise {A} (e : exn) : M A := lift (Err e).

(** A [for] loop over [items] whose body acts on the world. *)
Fixpoint M_for {A} (body : A -> M unit) (items : list A) : M unit :=
  match items with
  | [] => M_ret ()
  | x :: items' => M_bind (body x) (fun _ => M_for body items')
  end.

(** One record stored under its id. *)
Definition upsert_one (idx : gmap string (list float * pyval))
    (r : string * list float * pyval) : gmap string (list float * pyval) :=
  let '(id, values, metadata) := r in <[id := (values, metadata)]> idx.

(** [index.upsert(records)]: the service either raises, leaving the index
    as it was, or stores every record under its id, replacing a record
    already there. *)
Definition index_upsert (records : list (string * list float * pyval))
    : M unit := fun w =>
  match faults w with
  | Some e :: fs => (Err e, {| index := index w; faults := fs |})
  | _ => (Ok (), {| index := fold_left upsert_one records (index w);
                    faults := tail (faults w) |})
  end.

(** [embed_text(text_chunks)]. *)
Definition embed_text (text_chunks : list string)
    : result (list (list float)) :=
  encode text_chunks.

(** [enumerate(l)]. *)
Definition enumerate {A} (l : list A) : list (nat * A) :=
  zip (seq 0 (length l)) l.

(** The id of the chunk at position [i]: the object id, an underscore and
    [i] in decimal. *)
Definition record_id (object_id : pyval) (i : nat) : string :=
  py_str object_id +:+ "_" +:+ pretty i.

(** The [try] block of [process_onedrive_document]. *)
Definition process_onedrive_document_body (request_json : result pyval)
    : M JSONResponse :=
  req_body ← lift request_json;
  drive_id ← lift (py_get req_body (PStr "drive_id") PNone);
  object_id ← lift (py_get req_body (PStr "object_id") PNone);
  if negb (truthy drive_id) || negb (truthy object_id) then
    raise (HTTPException 400
      "Missing 'drive_id' or 'object_id' in the request body.")
  else
    documents ← lift (onedrive_load drive_id [object_id]);
    let document_text := Py.join " " documents in
    text_chunks ← lift (chunk_text document_text default_chunk_size);
    embeddings ← lift (embed_text text_chunks);
    _ ← M_for
          (fun '(i, (chunk, embedding)) =>
             index_upsert [(record_id object_id i, embedding,
                            PDict [(PStr "text", PStr chunk)])])
          (enumerate (zip text_chunks embeddings));
    mret {| content :=
              PDict [(PStr "message",
                      PStr "Document processed and embeddings stored successfully.")];
            status_code := 200 |}.

(** [POST /process_onedrive_document]: whatever the [try] block raises,
    [except Exception] turns into an [HTTPException] with status 500. *)
Definition process_onedrive_document (request_json : result pyval)
    : M JSONResponse := fun w =>
  match process_onedrive_document_body request_json w with
  | (Ok resp, w') => (Ok resp, w')
  | (Err e, w') =>
      (Err (HTTPException 500 ("Internal Server Error: " +:+ exn_str e)), w')
  end.

(** *** Aggregation *)

(** The [try]/[except] around [float(item.get("execution duration", 0))]. *)
Definition exec_duration_of (item : pyval) : pyval :=
  match
    try_except
      (d ← py_get item (PStr "execution duration") (PInt 0);
       f ← py_float d;
       Ok (PFloat f))
      (fun _ => Ok (PInt 0))
  with
  | Ok x => x
  | Err _ => PInt 0
  end.

(** What the endpoints raise when the request body is not JSON. *)
Definition invalid_json {A} : result A :=
  Err (HTTPException 400 "Invalid JSON in request body").

(** The loop of [datatransformation] over [records]. *)
Definition duration_loop (items : list pyval) : result dict :=
  for_each
    (fun duration_map item =>
       app_name ← py_get item (PStr "application name") (PStr "");
       let exec_duration := exec_duration_of item in
       total ← dict_get duration_map app_name (PInt 0);
       total' ← py_add total exec_duration;
       dict_set duration_map app_name total')
    items [].

(** [POST /datatransformation]. *)
Definition datatransformation (request_json : result pyval)
    : result JSONResponse :=
  req_body ← try_except request_json (fun _ => invalid_json);
  records ← py_get req_body (PStr "body") (PList []);
  items ← py_iter records;
  duration_map ← duration_loop items;
  let processed_data :=
    map (fun '(app_name, total_duration) =>
           PDict [(PStr "application name", app_name);
                  (PStr "execution duration", total_duration)])
        duration_map in
  JSONResponse_init (PDict [(PStr "records", PList processed_data)]) 200.

(** The loop of [datatransformation_summary] over [records]. *)
Definition summary_loop (items : list pyval) : result dict :=
  for_each
    (fun duration_map item =>
       app_name ← py_get item (PStr "application name") (PStr "");
       let exec_duration := exec_duration_of item in
       if truthy app_name then
         total ← dict_get duration_map app_name (PInt 0);
         total' ← py_add total exec_duration;
         dict_set duration_map app_name total'
       else Ok duration_map)
    items [].

(** [POST /datatransformation_summary]. *)
Definition datatransformation_summary (request_json : result pyval)
    : result JSONResponse :=
  req_body ← try_except request_json (fun _ => invalid_json);
  records ← match req_body with
            | PList _ => Ok req_body
            | _ => py_get req_body (PStr "body") (PList [])
            end;
  items ← py_iter records;
  duration_map ← summary_loop items;
  JSONResponse_init (PDict duration_map) 200.

End Pipeline.

(** ** Vocabulary for the properties *)

Section Vocabulary.
Context {PF : PyFloat} {Ext : External}.

(** *** Aggregation *)

(** Keys whose equality does not involve a float. *)
Definition exact_key (k : pyval) : bool :=
  match k with
  | PNone | PBool _ | PInt _ | PStr _ => true
  | _ => false
  end.

(** The key a record is aggregated under. *)
Definition app_name_of (item : pyval) : pyval :=
  match py_get item (PStr "application name") (PStr "") with
  | Ok v => v
  | Err _ => PNone
  end.

(** A record the loop accepts: a dict whose application name, when it has
    one, is [None], a [bool], an [int] or a [str]. *)
Definition named_record (item : pyval) : Prop :=
  exists name,
    py_get item (PStr "application name") (PStr "") = Ok name /\
    exact_key name = true.

(** The records aggregated under the key [k], in input order. *)
Definition matching (k : pyval) (records : list pyval) : list pyval :=
  List.filter (fun item => key_eqb (app_name_of item) k) records.

(** The sum of the durations of the records with key [k]. *)
Definition total_for (records : list pyval) (k : pyval) : result pyval :=
  py_sum (map exec_duration_of (matching k records)).

(** No two entries of a dict have equal keys. *)
Definition distinct_keys (d : dict) : Prop :=
  forall (i j : nat) (k1 v1 k2 v2 : pyval),
    d !! i = Some (k1, v1) -> d !! j = Some (k2, v2) ->
    key_eqb k1 k2 = true -> i = j.

(** The value an exact key stands for: two exact keys are equal exactly
    when they stand for the same value. *)
Definition canon (k : pyval) : option (Z + string) :=
  match k with
  | PNone => None
  | PBool b => Some (inl (Z.b2z b))
  | PInt z => Some (inl z)
  | PStr s => Some (inr s)
  | _ => None
  end.

(** The record [processed_data] holds for an item of [duration_map]. *)
Definition entry (kv : pyval * pyval) : pyval :=
  let '(app_name, total_duration) := kv in
  PDict [(PStr "application name", app_name);
         (PStr "execution duration", total_duration)].

(** A dict all of whose keys are exact. *)
Definition exact_dict (d : dict) : Prop :=
  Forall (fun kv => exact_key kv.1 = true) d.

(** No key of a dict is equal to a later one. *)
Fixpoint nodup_keys (d : dict) : Prop :=
  match d with
  | [] => True
  | (k, _) :: d' => dict_lookup d' k = None /\ nodup_keys d'
  end.

(** What [exec_duration] holds after the [try]: a float, or the integer 0
    of the [except] branch. *)
Definition is_duration (x : pyval) : Prop :=
  x = PInt 0 \/ exists f, x = PFloat f.

(** The body shared by the two loops: [guard] decides whether a record is
    aggregated. *)
Definition guarded_body (guard : pyval -> bool) (duration_map : dict)
    (item : pyval) : result dict :=
  app_name ← py_get item (PStr "application name") (PStr "");
  let exec_duration := exec_duration_of item in
  if guard app_name then
    total ← dict_get duration_map app_name (PInt 0);
    total' ← py_add total exec_duration;
    dict_set duration_map app_name total'
  else Ok duration_map.

(** The state of a loop after the records [processed]: the keys are
    pairwise different, and a key is in the map exactly when the guard
    accepts it and a processed record has it, with the sum of the durations
    of those records. *)
Definition loop_inv (guard : pyval -> bool) (dm : dict)
    (processed : list pyval) : Prop :=
  exact_dict dm /\ nodup_keys dm /\
  forall k, exact_key k = true ->
    match dict_lookup dm k with
    | Some t =>
        guard k = true /\ matching k processed <> [] /\
        total_for processed k = Ok t
    | None => guard k = false \/ matching k processed = []
    end.

(** A total [json.dumps] accepts: the integer 0, or a float that is
    finite. *)
Definition finite_total (t : pyval) : bool :=
  match t with
  | PFloat f => float_is_finite f
  | _ => true
  end.

(** Every total of a dict is one [json.dumps] accepts. *)
Definition finite_totals (d : dict) : bool :=
  forallb (fun kv => finite_total kv.2) d.

(** *** The pipeline *)

(** The text a match carries: [m["metadata"]["text"]] is the string [t]. *)
Definition match_text (m : pyval) (t : string) : Prop :=
  exists metadata,
    py_getitem m (PStr "metadata") = Ok metadata /\
    py_getitem metadata (PStr "text") = Ok (PStr t).

(** The record the loop upserts for the chunk at position [i]. *)
Definition chunk_record (object_id : pyval) (i : nat) (chunk : string)
    (embedding : list float) : string * list float * pyval :=
  (record_id object_id i, embedding, PDict [(PStr "text", PStr chunk)]).

(** The same, for an item of [enumerate(zip(text_chunks, embeddings))]. *)
Definition record_of (object_id : pyval)
    (x : nat * (string * list float)) : string * list float * pyval :=
  let '(i, (chunk, embedding)) := x in chunk_record object_id i chunk embedding.

(** The exception raised for a missing field. *)
Definition missing_field : exn :=
  HTTPException 400 "Missing 'drive_id' or 'object_id' in the request body.".

(** The exception [except Exception as e] raises in its place. *)
Definition internal_error (e : exn) : exn :=
  HTTPException 500 ("Internal Server Error: " +:+ exn_str e).

End Vocabulary.

(** ** The rest of the program *)

(** *** Start-up *)

(** The statements the module runs when it is imported, up to the creation
    of the index.  The environment is a finite map from names to strings;
    the indexes of the Pinecone account are a finite map from names to
    their configuration.  The calls to the Pinecone service are modelled
    where they succeed. *)
Module Startup.

(** [os.environ[k] = v]: the value has to be a [str]; [None], which
    [os.environ.get] gives for a name that is not set, is refused. *)
Definition environ_set (env : gmap string string) (k : string)
    (v : option string) : result (gmap string string) :=
  match v with
  | Some s => Ok (<[k := s]> env)
  | None => Err (TypeError "str expected, not NoneType")
  end.

(** The two assignments to [os.environ]. *)
Definition set_credentials (env : gmap string string)
    : result (gmap string string) :=
  env1 ← environ_set env "O365_CLIENT_ID" (env !! "O365_CLIENT_ID");
  environ_set env1 "O365_CLIENT_SECRET" (env1 !! "O365_CLIENT_SECRET").

(** The global settings read from the environment. *)
Record Settings : Type := {
  PINECONE_API_KEY : option string;
  PINECONE_ENVIRONMENT : string;
  INDEX_NAME : string;
  GEMINI_API_KEY : option string
}.

Definition read_settings (env : gmap string string) : Settings := {|
  PINECONE_API_KEY := env !! "PINECONE_API_KEY";
  PINECONE_ENVIRONMENT := default "us-east-1" (env !! "PINECONE_ENVIRONMENT");
  INDEX_NAME := default "rag" (env !! "INDEX_NAME");
  GEMINI_API_KEY := env !! "GEMINI_API_KEY"
|}.

(** The configuration of an index. *)
Record IndexSpec : Type := {
  dimension : Z;
  metric : string;
  cloud : string;
  region : string
}.

(** [pc.list_indexes()], as the names the module looks through. *)
Definition index_names (indexes : gmap string IndexSpec) : list string :=
  (map_to_list indexes).*1.

(** The index is created when its name is not among the listed ones. *)
Definition ensure_index (settings : Settings)
    (indexes : gmap string IndexSpec) : gmap string IndexSpec :=
  if bool_decide (INDEX_NAME settings ∈ index_names indexes) then indexes
  else <[INDEX_NAME settings :=
           {| dimension := 384; metric := "cosine"; cloud := "aws";
              region := PINECONE_ENVIRONMENT settings |}]> indexes.

(** The start-up sequence: credentials, settings, index. *)
Definition startup (env : gmap string string)
    (indexes : gmap string IndexSpec)
    : result (gmap string string * Settings * gmap string IndexSpec) :=
  env' ← set_credentials env;
  let settings := read_settings env' in
  Ok (env', settings, ensure_index settings indexes).

End Startup.

(** *** The query endpoint *)

Section Query.
Context {PF : PyFloat} {Ext : External}.

(** What the pipeline does with a query that is not a string is left
    open: it depends on what the embedding model makes of such an object. *)
Variable non_string_query : pyval -> result JSONResponse.

(** The [try] block of [rag_query] and its [except] clause. *)
Definition rag_query_request (request_json : result pyval) : result pyval :=
  try_except
    (req_body ← request_json;
     user_query ← py_get req_body (PStr "query") (PStr "");
     if negb (truthy user_query) then
       Err (ValueError "Missing query in the request body.")
     else Ok user_query)
    (fun e => Err (HTTPException 400 ("Invalid request: " +:+ exn_str e))).

(** [POST /rag_query], reading the global [index]; the global
    [embedding_model] is the model [encode] belongs to. *)
Definition rag_query (index : gmap string (list float * pyval))
    (request_json : result pyval) : result JSONResponse :=
  user_query ← rag_query_request request_json;
  match user_query with
  | PStr query =>
      context ← retrieve_similar_chunks index query encode default_top_k;
      answer ← query_gemini query context;
      Ok {| content := PDict [(PStr "answer", answer)]; status_code := 200 |}
  | _ => non_string_query user_query
  end.

End Query.

(** ** Vocabulary for the further properties *)

Section Vocabulary2.
Context {PF : PyFloat} {Ext : External}.

(** No id of the index is lost between two worlds. *)
Definition keeps_ids (w w' : World) : Prop :=
  forall id : string, is_Some (index w !! id) -> is_Some (index w' !! id).

(** The last record of a list with a given id. *)
Fixpoint last_with (id : string) (rs : list (string * list float * pyval))
    : option (list float * pyval) :=
  match rs with
  | [] => None
  | (id', values, metadata) :: rs' =>
      match last_with id rs' with
      | Some r => Some r
      | None => if decide (id' = id) then Some (values, metadata) else None
      end
  end.

(** The records ingestion upserts for the chunks and their embeddings. *)
Definition chunk_records (object_id : pyval) (text_chunks : list string)
    (embeddings : list (list float)) : list (string * list float * pyval) :=
  map (record_of object_id) (enumerate (zip text_chunks embeddings)).

(** The response of a successful ingestion. *)
Definition ingestion_done : JSONResponse :=
  {| content :=
       PDict [(PStr "message",
               PStr "Document processed and embeddings stored successfully.")];
     status_code := 200 |}.

(** The keys of a list of names in the order of their first appearance,
    each as first written. *)
Definition first_names (names : list pyval) : list pyval :=
  fold_left
    (fun keys name =>
       if existsb (fun k => key_eqb k name) keys then keys
       else keys ++ [name])
    names [].

(** The exception [rag_query] raises for a request it cannot read. *)
Definition invalid_request (e : exn) : exn :=
  HTTPException 400 ("Invalid request: " +:+ exn_str e).

(** The exception is not an [HTTPException]. *)
Definition not_http (e : exn) : Prop :=
  match e with
  | HTTPException _ _ => False
  | _ => True
  end.

End Vocabulary2.

(** The string has no underscore. *)
Fixpoint no_underscore (s : string) : bool :=
  match s with
  | EmptyString => true
  | String c s' => negb (Ascii.eqb c "_") && no_underscore s'
  end.

(** ** Instances *)

(** IEEE binary64 arithmetic, rounding to nearest even. *)
Module Binary64.

Definition prec : Z := 53.
Definition emax : Z := 1024.

Definition add (x y : spec_float) : spec_float := SFadd prec emax x y.

(** [float(z)]: the nearest float, [None] when it is out of range. *)
Definition of_int (z : Z) : option spec_float :=
  match binary_normalize prec emax z 0 false with
  | S754_infinity _ => None
  | f => Some f
  end.

Definition digit_of (c : ascii) : option Z :=
  let n := Z.of_N (N_of_ascii c) in
  if (48 <=? n) && (n <=? 57) then Some (n - 48) else None.

Fixpoint digits (s : string) (acc : Z) : option Z :=
  match s with
  | EmptyString => Some acc
  | String c s' =>
      match digit_of c with
      | Some d => digits s' (10 * acc + d)
      | None => None
      end
  end.

(** A parser for the plain decimal integers among the strings [float]
    accepts; every other string is refused. *)
Definition of_string (s : string) : option spec_float :=
  match s with
  | EmptyString => None
  | _ => match digits s 0 with
         | Some z => of_int z
         | None => None
         end
  end.

Definition eqb (x y : spec_float) : bool := SFeqb x y.

(** [x == z] for an integer [z]: the exact values are compared. *)
Definition eq_int (x : spec_float) (z : Z) : bool :=
  match x with
  | S754_zero _ => z =? 0
  | S754_finite s m e =>
      let v := cond_Zopp s (Zpos m) in
      if 0 <=? e then v * 2 ^ e =? z else v =? z * 2 ^ (- e)
  | _ => false
  end.

Definition is_finite (x : spec_float) : bool :=
  match x with
  | S754_zero _ | S754_finite _ _ _ => true
  | S754_infinity _ | S754_nan => false
  end.

End Binary64.

Definition binary64 : PyFloat := {|
  float := spec_float;
  float_add := Binary64.add;
  float_of_int := Binary64.of_int;
  float_of_string := Binary64.of_string;
  float_eqb := Binary64.eqb;
  float_eq_int := Binary64.eq_int;
  float_is_finite := Binary64.is_finite
|}.

(** Stand-ins for the collaborators, over binary64 floats. *)
Module Stub.

(** A document of 300 words. *)
Definition document : string := String.concat " " (replicate 300 "w").

Definition embedding_of (chunk : string) : list (float (PyFloat := binary64)) :=
  [S754_zero false].

Definition hit (id text : string) : pyval (PF := binary64) :=
  PDict [(PStr "id", PStr id);
         (PStr "metadata", PDict [(PStr "text", PStr text)])].

Definition exn_message (e : exn) : string :=
  match e with
  | HTTPException s d => pretty s +:+ ": " +:+ d
  | ValueError m | TypeError m | KeyError m | IndexError m
  | AttributeError m | OverflowError m | JSONDecodeError m
  | ExternalError m => m
  end.

Definition services : External (PF := binary64) := {|
  onedrive_load := fun _ _ => Ok [document];
  encode := fun texts => Ok (map embedding_of texts);
  index_query := fun _ _ _ =>
    Ok (PDict [(PStr "matches",
                PList [hit "doc_0" "alpha beta"; hit "doc_1" "gamma"])]);
  requests_post := fun _ _ _ =>
    Ok {| response_status_code := 429;
          response_text := "quota exceeded";
          response_json := Err (JSONDecodeError "Expecting value") |};
  exn_str := exn_message;
  repr := fun _ => "object";
  GEMINI_API_KEY := None
|}.

(** The index service accepts one upsert and fails at the next. *)
Definition world : World (PF := binary64) :=
  {| index := ∅; faults := [None; Some (ExternalError "timeout")] |}.

Definition ingestion_request : dict (PF := binary64) :=
  [(PStr "drive_id", PStr "drive"); (PStr "object_id", PStr "doc")].

Definition chunks : list string :=
  match chunk_text document default_chunk_size with
  | Ok cs => cs
  | Err _ => []
  end.

Definition record (name duration : pyval (PF := binary64))
    : pyval (PF := binary64) :=
  PDict [(PStr "application name", name); (PStr "execution duration", duration)].

Definition records : list (pyval (PF := binary64)) :=
  [record (PStr "etl") (PStr "3");
   record (PStr "etl") (PStr "n/a");
   PDict [(PStr "execution duration", PInt 2)];
   record (PStr "") (PInt 5)].

Definition aggregation_request : pyval (PF := binary64) :=
  PDict [(PStr "body", PList records)].

(** A record whose duration is the JSON number [1e999], which [json.loads]
    reads as an infinity. *)
Definition infinite_records : list (pyval (PF := binary64)) :=
  [record (PStr "etl") (PFloat (PF := binary64) (S754_infinity false))].

Definition infinite_request : pyval (PF := binary64) :=
  PDict [(PStr "body", PList infinite_records)].

(** Two records of duration [2 ** 1023]: each is a float, their sum is
    not. *)
Definition overflow_records : list (pyval (PF := binary64)) :=
  [record (PStr "etl") (PInt (2 ^ 1023));
   record (PStr "etl") (PInt (2 ^ 1023))].

Definition overflow_request : pyval (PF := binary64) :=
  PDict [(PStr "body", PList overflow_records)].

(** A record whose application name is the number 0. *)
Definition zero_named_records : list (pyval (PF := binary64)) :=
  [record (PInt 0) (PStr "3")].

Definition zero_named_request : pyval (PF := binary64) :=
  PDict [(PStr "body", PList zero_named_records)].

(** The float 3.0. *)
Definition three : float (PyFloat := binary64) :=
  S754_finite false 6755399441055744 (-51).

End Stub.

(** Further stand-ins: the collaborators for a given answer of the index
    and a given response of the answering service, over a document of three
    words. *)
Module Stub2.

Definition services (results : pyval (PF := binary64))
    (response : HTTPResponse (PF := binary64)) : External (PF := binary64) := {|
  onedrive_load := fun _ _ => Ok ["alpha beta gamma"];
  encode := fun texts => Ok (map Stub.embedding_of texts);
  index_query := fun _ _ _ => Ok results;
  requests_post := fun _ _ _ => Ok response;
  exn_str := Stub.exn_message;
  repr := fun _ => "object";
  GEMINI_API_KEY := Some "key"
|}.

Definition two_hits : pyval (PF := binary64) :=
  PDict [(PStr "matches",
          PList [Stub.hit "doc_0" "alpha beta"; Stub.hit "doc_1" "gamma"])].

(** The second match has no metadata. *)
Definition bare_hit : pyval (PF := binary64) :=
  PDict [(PStr "matches",
          PList [Stub.hit "doc_0" "alpha beta";
                 PDict [(PStr "id", PStr "doc_1")]])].

Definition answer_part : dict (PF := binary64) :=
  [(PStr "text", PStr "Alpha comes first.")].

Definition answer_content : dict (PF := binary64) :=
  [(PStr "parts", PList [PDict answer_part]); (PStr "role", PStr "model")].

Definition answer_candidate : dict (PF := binary64) :=
  [(PStr "content", PDict answer_content)].

Definition answer_body : dict (PF := binary64) :=
  [(PStr "candidates", PList [PDict answer_candidate])].

Definition answered : HTTPResponse (PF := binary64) :=
  {| response_status_code := 200;
     response_text := "candidates";
     response_json := Ok (PDict answer_body) |}.

Definition no_candidate : HTTPResponse (PF := binary64) :=
  {| response_status_code := 200;
     response_text := "empty";
     response_json := Ok (PDict [(PStr "candidates", PList [])]) |}.


Definition non_string_query (q : pyval (PF := binary64))
    : result (JSONResponse (PF := binary64)) :=
  Err (TypeError "the query is not a string").

Definition query_request : dict (PF := binary64) :=
  [(PStr "query", PStr "what is alpha")].

(** An index service that accepts every call. *)
Definition healthy : World (PF := binary64) := {| index := ∅; faults := [] |}.

Definition environment : gmap string string :=
  <["O365_CLIENT_ID" := "id"]> (<["O365_CLIENT_SECRET" := "secret"]> ∅).

Definition malformed_request : pyval (PF := binary64) :=
  PDict [(PStr "body",
          PList [Stub.record (PStr "etl") (PStr "3"); PInt 7])].

End Stub2.


(** * Properties *)

(** ** The chunker *)

Lemma range_length_lt (n step k : Z) :
  0 < step -> 0 <= k ->
  (k < Py.range_length 0 n step <-> k * step < n).
Proof.
  intros Hstep Hk. unfold Py.range_length.
  destruct (0 <? step) eqn:E; [|lia].
  destruct (n <=? 0) eqn:E'.
  - apply Z.leb_le in E'. nia.
  - apply Z.leb_gt in E'.
    replace (n - 0 - 1) with (n - 1) by lia.
    pose proof (Z.div_mod (n - 1) step ltac:(lia)) as Hdm.
    pose proof (Z.mod_pos_bound (n - 1) step Hstep) as Hb.
    nia.
Qed.

Lemma fold_left_snoc {A B} (f : B -> A) (l : list B) (acc : list A) :
  fold_left (fun acc i => acc ++ [f i]) l acc = acc ++ map f l.
Proof.
  revert acc. induction l as [|x l IH]; intros acc; simpl.
  - by rewrite app_nil_r.
  - rewrite IH, <- app_assoc. reflexivity.
Qed.

Lemma slice_window {A} (l : list A) (i c : Z) :
  0 <= i -> 0 <= c ->
  Py.slice l i (i + c) = take (Z.to_nat c) (drop (Z.to_nat i) l).
Proof.
  intros Hi Hc. unfold Py.slice, Py.adjust_index, Py.len.
  destruct (i <? 0) eqn:E1; [lia|].
  destruct (i + c <? 0) eqn:E2; [lia|].
  destruct (decide (Z.of_nat (length l) <= i)) as [Hge|Hlt].
  - rewrite !drop_ge by lia. by rewrite !take_nil.
  - replace (Z.to_nat (i `min` Z.of_nat (length l))) with (Z.to_nat i) by lia.
    destruct (decide (i + c <= Z.of_nat (length l))) as [Hin|Hout].
    + f_equal. lia.
    + rewrite !take_ge; [done| |]; rewrite length_drop; lia.
Qed.

Lemma half_pos (chunk_size : Z) : 2 <= chunk_size -> 0 < chunk_size / 2.
Proof. intros. apply Z.div_str_pos. lia. Qed.

(** For a size of at least 2 the loop yields one window per multiple of the
    step below the number of words. *)
Lemma chunk_text_eq (text : string) (chunk_size : Z) :
  2 <= chunk_size ->
  chunk_text text chunk_size =
  Ok (map (fun k => Py.join " " (take (Z.to_nat chunk_size)
                      (drop (k * Z.to_nat (chunk_size / 2)) (Py.split text))))
          (seq 0 (Z.to_nat (Py.range_length 0 (Py.len (Py.split text))
                              (chunk_size / 2))))).
Proof.
  intros Hcs. pose proof (half_pos _ Hcs) as Hstep.
  unfold chunk_text, Py.range.
  destruct (chunk_size / 2 =? 0) eqn:E; [lia|].
  cbn [mbind result_bind]. f_equal.
  rewrite fold_left_snoc, app_nil_l, map_map.
  apply map_ext. intros k.
  rewrite slice_window by lia. do 3 f_equal. lia.
Qed.

Lemma lookup_map_seq {A} (f : nat -> A) (n k : nat) :
  map f (seq 0 n) !! k = if decide (k < n)%nat then Some (f k) else None.
Proof.
  change (map f (seq 0 n)) with (f <$> seq 0 n).
  rewrite list_lookup_fmap.
  destruct (decide (k < n)%nat) as [Hlt|Hge].
  - by rewrite lookup_seq_lt.
  - by rewrite lookup_seq_ge by lia.
Qed.

Lemma chunk_index_lt (n step : Z) (k : nat) :
  0 < step -> 0 <= n ->
  (k < Z.to_nat (Py.range_length 0 n step))%nat <->
  (k * Z.to_nat step < Z.to_nat n)%nat.
Proof.
  intros Hstep Hn.
  pose proof (range_length_lt n step (Z.of_nat k) Hstep ltac:(lia)) as Hr.
  split; intros Hk.
  - assert (Z.of_nat k * step < n) by (apply Hr; lia). nia.
  - assert (Z.of_nat k < Py.range_length 0 n step) by (apply Hr; nia). lia.
Qed.

Lemma chunk_count_lt {A} (ws : list A) (chunk_size : Z) (k : nat) :
  2 <= chunk_size ->
  (k < Z.to_nat (Py.range_length 0 (Py.len ws) (chunk_size / 2)))%nat <->
  (k * Z.to_nat (chunk_size / 2) < length ws)%nat.
Proof.
  intros Hcs.
  pose proof (chunk_index_lt (Py.len ws) (chunk_size / 2) k
                (half_pos _ Hcs) ltac:(unfold Py.len; lia)) as Hk.
  unfold Py.len in Hk. rewrite Nat2Z.id in Hk. exact Hk.
Qed.

(** The chunk at position [k], for every [k]. *)
Lemma chunk_text_lookup (text : string) (chunk_size : Z) :
  2 <= chunk_size ->
  exists chunks, chunk_text text chunk_size = Ok chunks /\
    forall k : nat,
      chunks !! k =
      if decide (k * Z.to_nat (chunk_size / 2) < length (Py.split text))%nat
      then Some (Py.join " " (take (Z.to_nat chunk_size)
                   (drop (k * Z.to_nat (chunk_size / 2)) (Py.split text))))
      else None.
Proof.
  intros Hcs. eexists. split; [by apply chunk_text_eq|].
  intros k. rewrite lookup_map_seq.
  pose proof (chunk_count_lt (Py.split text) chunk_size k Hcs) as Hk.
  repeat case_decide; tauto.
Qed.

(** *** Words *)

Lemma string_app_cons (x : ascii) (a b : string) :
  String x a +:+ b = String x (a +:+ b).
Proof. reflexivity. Qed.

Lemma string_app_nil_l (b : string) : "" +:+ b = b.
Proof. reflexivity. Qed.

Lemma string_app_assoc (a b c : string) : (a +:+ b) +:+ c = a +:+ (b +:+ c).
Proof.
  induction a as [|x a IH]; [done|].
  by rewrite !string_app_cons, IH.
Qed.

Lemma string_app_nil_r (a : string) : a +:+ "" = a.
Proof.
  induction a as [|x a IH]; [done|].
  by rewrite string_app_cons, IH.
Qed.

Lemma no_space_app (a b : string) :
  no_space (a +:+ b) = no_space a && no_space b.
Proof.
  induction a as [|x a IH]; [done|].
  rewrite string_app_cons. simpl. rewrite IH. by rewrite andb_assoc.
Qed.

(** Reading the characters of a word extends the current run. *)
Lemma split_from_word (w x rest : string) :
  no_space x = true ->
  Py.split_from w (x +:+ rest) = Py.split_from (w +:+ x) rest.
Proof.
  revert w. induction x as [|c x IH]; intros w Hx.
  - by rewrite string_app_nil_l, string_app_nil_r.
  - simpl in Hx. apply andb_true_iff in Hx as [Hc Hx].
    apply negb_true_iff in Hc.
    rewrite string_app_cons. simpl. rewrite Hc, IH by done.
    by rewrite string_app_assoc.
Qed.

(** A whitespace character ends the current run. *)
Lemma split_from_space (w : string) (c : ascii) (rest : string) :
  Py.isspace c = true -> w <> "" ->
  Py.split_from w (String c rest) = w :: Py.split_from "" rest.
Proof. intros Hc Hw. simpl. rewrite Hc. by destruct w. Qed.

Lemma split_from_is_word (w s : string) :
  no_space w = true -> Forall is_word (Py.split_from w s).
Proof.
  revert w. induction s as [|c s IH]; intros w Hw; simpl.
  - destruct w; [constructor|]. by repeat constructor.
  - destruct (Py.isspace c) eqn:Hc.
    + destruct w; [by apply IH|].
      constructor; [by split|by apply IH].
    + apply IH. rewrite no_space_app, Hw. simpl. by rewrite Hc.
Qed.

(** The words of a text are words. *)
Lemma split_is_word (s : string) : Forall is_word (Py.split s).
Proof. by apply split_from_is_word. Qed.

(** Joining words with single spaces and splitting again gives the words
    back. *)
Lemma split_join (ws : list string) :
  Forall is_word ws -> Py.split (Py.join " " ws) = ws.
Proof.
  unfold Py.split, Py.join.
  induction ws as [|x ws IH]; intros Hws; [done|].
  apply Forall_cons in Hws as [[Hne Hx] Hws].
  destruct ws as [|y ws].
  - simpl. rewrite <- (string_app_nil_r x) at 1.
    rewrite split_from_word, string_app_nil_l by done. simpl. by destruct x.
  - change (String.concat " " (x :: y :: ws))
      with (x +:+ String " " (String.concat " " (y :: ws))).
    rewrite split_from_word, string_app_nil_l by done.
    rewrite split_from_space by done. by rewrite IH.
Qed.

(** *** Overlapping windows of a list *)

Section Windows.
Context {A : Type}.
Variables (l : list A) (size step : nat).
Hypothesis Hstep : (0 < step)%nat.
Hypothesis Hsize : (step <= size)%nat.

Lemma window_lookup (k j : nat) :
  (j < size)%nat -> window l size step k !! j = l !! (k * step + j)%nat.
Proof using Type. intros Hj. unfold window. by rewrite lookup_take_lt, lookup_drop. Qed.

Lemma window_length (k : nat) :
  (k * step < length l)%nat ->
  (1 <= length (window l size step k) <= size)%nat.
Proof using Hstep Hsize.
  intros Hk. unfold window. rewrite length_take, length_drop. lia.
Qed.

(** The tail of a window past the step is the head of the next window. *)
Lemma window_overlap (k : nat) :
  drop step (window l size step k) = take (size - step) (window l size step (S k)).
Proof using Hstep Hsize.
  unfold window. apply list_eq. intros i.
  rewrite !lookup_drop, !lookup_take, !lookup_drop.
  repeat case_decide; try lia; try done.
  f_equal. lia.
Qed.

Lemma window_drop_overlap (k : nat) :
  drop (size - step) (window l size step k) =
  take step (drop (k * step + (size - step)) l).
Proof using Hstep Hsize.
  unfold window. apply list_eq. intros i.
  rewrite !lookup_drop, !lookup_take, !lookup_drop.
  repeat case_decide; try lia; try done.
  f_equal. lia.
Qed.

Lemma windows_concat (m : nat) :
  window l size step 0 ++
    concat (map (fun k => drop (size - step) (window l size step k)) (seq 1 m)) =
  take (size + m * step) l.
Proof using Hstep Hsize.
  induction m as [|m IH].
  - simpl. unfold window. rewrite drop_0, app_nil_r. f_equal. lia.
  - rewrite seq_S, map_app, concat_app, app_assoc, IH. simpl.
    rewrite app_nil_r, window_drop_overlap.
    replace (S m * step + (size - step))%nat with (size + m * step)%nat by lia.
    rewrite take_take_drop. f_equal. lia.
Qed.

End Windows.

Lemma window_is_word (ws : list string) (size step k : nat) :
  Forall is_word ws -> Forall is_word (window ws size step k).
Proof. intros Hws. unfold window. by apply Forall_take, Forall_drop. Qed.

(** The words of a chunk are the words of its window. *)
Lemma split_chunk (ws : list string) (size step k : nat) :
  Forall is_word ws ->
  Py.split (Py.join " " (window ws size step k)) = window ws size step k.
Proof. intros Hws. by apply split_join, window_is_word. Qed.

Lemma rejoin_windows (ws : list string) (size step count : nat) :
  Forall is_word ws ->
  (0 < step <= size)%nat ->
  (length ws <= count * step)%nat ->
  (count = 0%nat -> ws = []) ->
  rejoin (size - step)
    (map (fun k => Py.join " " (window ws size step k)) (seq 0 count)) = ws.
Proof.
  intros Hws [Hstep Hsize] Hcover Hzero.
  destruct count as [|m]; [by rewrite Hzero|].
  unfold rejoin. cbn [seq map]. rewrite map_map, split_chunk by done.
  rewrite (map_ext _ (fun k => drop (size - step) (window ws size step k))).
  2: { intros k. by rewrite split_chunk. }
  rewrite windows_concat by done.
  apply take_ge. lia.
Qed.

(** C3: for every text and every chunk size of at least 2, [chunk_text]
    returns the chunks whose [k]-th element is the space-join of the words
    from index [k * (chunk_size // 2)] on, at most [chunk_size] of them: one
    chunk for every multiple of [chunk_size // 2] below the number of words,
    each holding between 1 and [chunk_size] words; the empty text gives the
    empty list. *)
Theorem chunk_text_windows (text : string) (chunk_size : Z) :
  2 <= chunk_size ->
  let words := Py.split text in
  let step := Z.to_nat (chunk_size / 2) in
  let size := Z.to_nat chunk_size in
  exists chunks, chunk_text text chunk_size = Ok chunks /\
    (forall k : nat,
       chunks !! k =
       if decide (k * step < length words)%nat
       then Some (Py.join " " (take size (drop (k * step) words)))
       else None) /\
    (forall k : nat, (k * step < length words)%nat ->
       (1 <= length (take size (drop (k * step) words)) <= size)%nat) /\
    chunk_text "" chunk_size = Ok [].
Proof.
  intros Hcs words step size.
  destruct (chunk_text_lookup text chunk_size Hcs) as (chunks & Heq & Hlook).
  exists chunks. split; [done|]. split; [done|].
  pose proof (half_pos _ Hcs) as Hhalf.
  assert (Hdiv : chunk_size / 2 <= chunk_size)
    by (apply Z.div_le_upper_bound; lia).
  split.
  - intros k Hk. apply (window_length words size step); [lia|lia|done].
  - rewrite chunk_text_eq by done. unfold Py.range_length.
    by destruct (0 <? chunk_size / 2).
Qed.

Lemma chunk_text_windows_witness :
  exists chunks, chunk_text "a b c d e" 4 = Ok chunks /\
    chunks !! 1%nat = Some "c d e".
Proof.
  destruct (chunk_text_windows "a b c d e" 4 ltac:(lia))
    as (chunks & Heq & Hlook & _).
  exists chunks. split; [exact Heq|]. exact (Hlook 1%nat).
Defined.

(** C9: for every text, the empty one included, [chunk_text] raises
    [ValueError] when the chunk size is 0 or 1, because the step
    [chunk_size // 2] of the range is zero; among the positive sizes it
    returns a list exactly for those of at least 2. *)
Theorem chunk_text_zero_step (text : string) (chunk_size : Z) :
  (chunk_size = 0 \/ chunk_size = 1 ->
   chunk_text text chunk_size =
   Err (ValueError "range() arg 3 must not be zero")) /\
  (0 < chunk_size -> (is_ok (chunk_text text chunk_size) = true <-> 2 <= chunk_size)).
Proof.
  split.
  - by intros [-> | ->].
  - intros Hpos. split.
    + intros Hok. destruct (decide (chunk_size = 1)) as [->|?]; [done|lia].
    + intros Hcs. by rewrite chunk_text_eq.
Qed.

Lemma chunk_text_zero_step_witness :
  chunk_text "" 1 = Err (ValueError "range() arg 3 must not be zero") /\
  is_ok (chunk_text "a b" 2) = true.
Proof.
  split.
  - apply (proj1 (chunk_text_zero_step "" 1)). right. reflexivity.
  - apply (proj2 (chunk_text_zero_step "a b" 2)); lia.
Defined.

(** C1, as the code has it: for every text with at least one word and
    fewer than [chunk_size] words, the first chunk holds all the words of
    the text joined by single spaces; it is the only chunk when the text has
    at most [chunk_size // 2] words, and otherwise a second chunk follows
    with the words from index [chunk_size // 2] on. *)
Theorem chunk_text_short (text : string) (chunk_size : Z) :
  let words := Py.split text in
  words <> [] ->
  Py.len words < chunk_size ->
  chunk_text text chunk_size =
  Ok (if decide (Py.len words <= chunk_size / 2)
      then [Py.join " " words]
      else [Py.join " " words;
            Py.join " " (drop (Z.to_nat (chunk_size / 2)) words)]).
Proof.
  intros words Hne Hlt. unfold Py.len in *.
  assert (0 < length words)%nat by (destruct words; [done|simpl; lia]).
  assert (Hcs : 2 <= chunk_size) by lia.
  pose proof (half_pos _ Hcs) as Hhalf.
  pose proof (Z.div_mod chunk_size 2 ltac:(lia)) as Hdm.
  pose proof (Z.mod_pos_bound chunk_size 2 ltac:(lia)) as Hmod.
  assert (Heq := chunk_text_eq text chunk_size Hcs). fold words in Heq.
  rewrite Heq. clear Heq. clearbody words. f_equal.
  unfold Py.range_length, Py.len.
  destruct (0 <? chunk_size / 2) eqn:E; [|lia].
  destruct (Z.of_nat (length words) <=? 0) eqn:E'; [lia|].
  replace (Z.of_nat (length words) - 0 - 1)
    with (Z.of_nat (length words) - 1) by lia.
  case_decide as Hshort.
  - rewrite (Z.div_small (Z.of_nat (length words) - 1)) by lia. simpl.
    by rewrite drop_0, take_ge by lia.
  - assert (Hq : (Z.of_nat (length words) - 1) / (chunk_size / 2) = 1).
    { symmetry. apply (Z.div_unique_pos _ _ 1
        (Z.of_nat (length words) - 1 - chunk_size / 2)); lia. }
    rewrite Hq. simpl. rewrite drop_0, Nat.add_0_r, !take_ge; [done| |lia].
    rewrite length_drop. lia.
Qed.

Lemma chunk_text_short_witness :
  chunk_text "a b c" 4 = Ok ["a b c"; "c"].
Proof.
  apply (chunk_text_short "a b c" 4); [discriminate|reflexivity].
Defined.

(** C1 as stated fails: a text of three words, fewer than the chunk size
    4, gives two chunks. *)
Lemma chunk_text_short_counterexample :
  ~ (forall (text : string) (chunk_size : Z),
       Py.split text <> [] ->
       Py.len (Py.split text) < chunk_size ->
       chunk_text text chunk_size = Ok [Py.join " " (Py.split text)]).
Proof.
  intros Hclaim.
  specialize (Hclaim "a b c" 4 ltac:(discriminate) ltac:(reflexivity)).
  discriminate Hclaim.
Qed.

(** A negative chunk size gives a negative step, an empty range and no
    chunk. *)
Lemma chunk_text_negative (text : string) (chunk_size : Z) :
  chunk_size < 0 -> chunk_text text chunk_size = Ok [].
Proof.
  intros Hneg. unfold chunk_text, Py.range.
  assert (Hstep : chunk_size / 2 < 0) by (apply Z.div_lt_upper_bound; lia).
  destruct (chunk_size / 2 =? 0) eqn:E; [lia|].
  cbn [mbind result_bind]. unfold Py.range_length.
  destruct (0 <? chunk_size / 2) eqn:E'; [lia|].
  destruct (0 <=? Py.len (Py.split text)) eqn:E''; [done|].
  apply Z.leb_gt in E''. unfold Py.len in E''. lia.
Qed.

(** Overlapping windows, for any chunk size of at least 2. *)
Lemma chunk_text_overlapping (text : string) (chunk_size : Z)
    (size step ov : nat) :
  2 <= chunk_size ->
  size = Z.to_nat chunk_size ->
  step = Z.to_nat (chunk_size / 2) ->
  ov = (size - step)%nat ->
  let words := Py.split text in
  exists chunks, chunk_text text chunk_size = Ok chunks /\
    (forall (k : nat) (c : string), chunks !! k = Some c ->
       Py.split c = take size (drop (k * step) words) /\ Py.split c <> []) /\
    (forall (i : nat) (w : string), words !! i = Some w ->
       exists (k : nat) (c : string),
         chunks !! k = Some c /\ (k * step <= i)%nat /\
         Py.split c !! (i - k * step)%nat = Some w) /\
    (forall (k : nat) (c c' : string),
       chunks !! k = Some c -> chunks !! S k = Some c' ->
       drop step (Py.split c) = take ov (Py.split c') /\
       drop step (Py.split c) <> []) /\
    rejoin ov chunks = words.
Proof.
  intros Hcs -> -> -> words.
  pose proof (half_pos _ Hcs) as Hhalf.
  assert (Hdiv : chunk_size / 2 <= chunk_size)
    by (apply Z.div_le_upper_bound; lia).
  assert (Hlt2 : chunk_size / 2 < chunk_size)
    by (apply Z.div_lt_upper_bound; lia).
  set (size := Z.to_nat chunk_size).
  set (step := Z.to_nat (chunk_size / 2)).
  assert (Hstep : (0 < step)%nat) by lia.
  assert (Hsize : (step < size)%nat) by lia.
  destruct (chunk_text_lookup text chunk_size Hcs) as (chunks & Heq & Hlook).
  fold step size words in Hlook.
  assert (Hws : Forall is_word words) by apply split_is_word.
  assert (Hchunk : forall k c, chunks !! k = Some c ->
            (k * step < length words)%nat /\
            c = Py.join " " (window words size step k)).
  { intros k c Hc. rewrite Hlook in Hc. case_decide; [|done].
    split; [done|]. by injection Hc as <-. }
  assert (Hsplit : forall k c, chunks !! k = Some c ->
            (k * step < length words)%nat /\
            Py.split c = window words size step k).
  { intros k c Hc. destruct (Hchunk k c Hc) as [Hk ->].
    split; [done|]. by apply split_chunk. }
  exists chunks. split; [done|]. split; [|split; [|split]].
  - intros k c Hc. destruct (Hsplit k c Hc) as [Hk ->]. split; [done|].
    pose proof (window_length words size step Hstep ltac:(lia) k Hk) as Hlen.
    intros Hnil. rewrite Hnil in Hlen. cbn [length] in Hlen. lia.
  - intros i w Hw.
    assert (Hi : (i < length words)%nat) by (by eapply lookup_lt_Some).
    pose proof (Nat.div_mod_eq i step) as Hdm.
    pose proof (Nat.mod_upper_bound i step ltac:(lia)) as Hmod.
    set (k := (i / step)%nat) in *.
    assert (Hk : (k * step < length words)%nat) by lia.
    exists k, (Py.join " " (window words size step k)).
    split; [|split; [lia|]].
    + rewrite Hlook. by case_decide.
    + rewrite split_chunk, window_lookup by (done || lia).
      rewrite <- Hw. f_equal. lia.
  - intros k c c' Hc Hc'.
    destruct (Hsplit k c Hc) as [Hk ->].
    destruct (Hsplit (S k) c' Hc') as [Hk' ->].
    rewrite (window_overlap words size step Hstep ltac:(lia)).
    split; [done|].
    pose proof (window_length words size step Hstep ltac:(lia) (S k) Hk')
      as Hlen.
    intros Hnil. apply (f_equal length) in Hnil.
    rewrite length_take in Hnil. cbn [length] in Hnil. lia.
  - rewrite chunk_text_eq in Heq by done. injection Heq as <-.
    fold step size words.
    pose proof (fun k => chunk_count_lt words chunk_size k Hcs) as Hcount.
    fold step in Hcount. revert Hcount.
    generalize (Z.to_nat (Py.range_length 0 (Py.len words) (chunk_size / 2))).
    intros count Hcount.
    apply rejoin_windows.
    + done.
    + lia.
    + pose proof (Hcount count). lia.
    + intros Hzero. pose proof (Hcount 0%nat).
      apply nil_length_inv. lia.
Qed.

(** C4: for every non-empty text and the chunk size 500, the words of each
    chunk are a contiguous window of the words of the text (the words from
    index [250 k] on, at most 500 of them, and at least one); every word of
    the text occurs, at its place, in a chunk; the words of a chunk past its
    first 250 are the first words of the next chunk, and there is at least
    one such word; and the words of the first chunk followed by the words of
    each later chunk past its first 250 are the words of the text, in
    order. *)
Theorem chunk_text_preserves_words (text : string) :
  text <> "" ->
  let words := Py.split text in
  exists chunks, chunk_text text default_chunk_size = Ok chunks /\
    (forall (k : nat) (c : string), chunks !! k = Some c ->
       Py.split c = take 500 (drop (k * 250) words) /\ Py.split c <> []) /\
    (forall (i : nat) (w : string), words !! i = Some w ->
       exists (k : nat) (c : string),
         chunks !! k = Some c /\ (k * 250 <= i)%nat /\
         Py.split c !! (i - k * 250)%nat = Some w) /\
    (forall (k : nat) (c c' : string),
       chunks !! k = Some c -> chunks !! S k = Some c' ->
       drop 250 (Py.split c) = take 250 (Py.split c') /\
       drop 250 (Py.split c) <> []) /\
    rejoin 250 chunks = words.
Proof.
  intros _.
  apply (chunk_text_overlapping text default_chunk_size 500 250 250);
    [done|reflexivity..].
Qed.

Lemma chunk_text_preserves_words_witness :
  exists chunks, chunk_text "a b c" default_chunk_size = Ok chunks /\
    rejoin 250 chunks = ["a"; "b"; "c"].
Proof.
  destruct (chunk_text_preserves_words "a b c" ltac:(discriminate))
    as (chunks & Heq & _ & _ & _ & Hre).
  exists chunks. split; [exact Heq|exact Hre].
Defined.

(** ** Aggregation *)

Section Aggregation.
Context {PF : PyFloat}.

Lemma key_eqb_canon (a b : pyval) :
  exact_key a = true -> exact_key b = true ->
  key_eqb a b = bool_decide (canon a = canon b).
Proof.
  intros Ha Hb. destruct a, b; try done; cbn -[Z.eqb String.eqb].
  all: case_bool_decide as Hd; simplify_eq;
    rewrite ?Z.eqb_refl, ?String.eqb_refl; try done.
  all: try (apply Z.eqb_neq; congruence).
  all: try (apply String.eqb_neq; congruence).
  apply Z.eqb_eq; congruence.
Qed.

Lemma key_eqb_refl (a : pyval) : exact_key a = true -> key_eqb a a = true.
Proof. intros Ha. rewrite key_eqb_canon by done. by apply bool_decide_eq_true. Qed.

Lemma key_eqb_sym (a b : pyval) :
  exact_key a = true -> exact_key b = true -> key_eqb a b = key_eqb b a.
Proof.
  intros Ha Hb. rewrite !key_eqb_canon by done.
  apply bool_decide_ext. split; congruence.
Qed.

(** Equal keys compare alike with every other key. *)
Lemma key_eqb_congr (a b c : pyval) :
  exact_key a = true -> exact_key b = true -> exact_key c = true ->
  key_eqb a b = true -> key_eqb a c = key_eqb b c.
Proof.
  intros Ha Hb Hc. rewrite !key_eqb_canon by done.
  intros Hab%bool_decide_eq_true. apply bool_decide_ext. split; congruence.
Qed.

Lemma dict_lookup_store (d : dict) (k0 v k : pyval) :
  exact_dict d -> exact_key k0 = true -> exact_key k = true ->
  dict_lookup (dict_store d k0 v) k =
  if key_eqb k0 k then Some v else dict_lookup d k.
Proof.
  intros Hd Hk0 Hk. induction Hd as [|[k' v'] d Hk' Hd IH]; simpl in *.
  - rewrite (key_eqb_sym k0 k) by done. by rewrite (key_eqb_sym k k0).
  - destruct (key_eqb k' k0) eqn:E; simpl.
    + rewrite (key_eqb_congr k' k0 k) by done. by destruct (key_eqb k0 k).
    + rewrite IH. destruct (key_eqb k' k) eqn:E'; [|done].
      rewrite (key_eqb_sym k0 k), <- (key_eqb_congr k' k k0), E by done.
      done.
Qed.

Lemma dict_store_exact (d : dict) (k0 v : pyval) :
  exact_dict d -> exact_key k0 = true -> exact_dict (dict_store d k0 v).
Proof.
  intros Hd Hk0. induction Hd as [|[k' v'] d Hk' Hd IH]; simpl.
  - by repeat constructor.
  - destruct (key_eqb k' k0); by constructor.
Qed.

Lemma dict_store_nodup (d : dict) (k0 v : pyval) :
  exact_dict d -> exact_key k0 = true ->
  nodup_keys d -> nodup_keys (dict_store d k0 v).
Proof.
  intros Hd Hk0. induction Hd as [|[k' v'] d Hk' Hd IH]; simpl.
  - done.
  - intros [Hfresh Hnd]. destruct (key_eqb k' k0) eqn:E; simpl.
    + done.
    + split; [|by apply IH].
      rewrite dict_lookup_store by done.
      by rewrite (key_eqb_sym k0 k'), E.
Qed.

Lemma dict_lookup_elem (d : dict) (k v : pyval) :
  dict_lookup d k = Some v ->
  exists (i : nat) (k' : pyval), d !! i = Some (k', v) /\ key_eqb k' k = true.
Proof.
  induction d as [|[k' v'] d IH]; simpl; [done|].
  destruct (key_eqb k' k) eqn:E.
  - intros [= ->]. by exists 0%nat, k'.
  - intros Hl. destruct (IH Hl) as (i & k'' & Hi & Hk). by exists (S i), k''.
Qed.

Lemma dict_lookup_None (d : dict) (k : pyval) (i : nat) (k' v : pyval) :
  dict_lookup d k = None -> d !! i = Some (k', v) -> key_eqb k' k = false.
Proof.
  revert i. induction d as [|[k1 v1] d IH]; intros i; simpl; [done|].
  destruct (key_eqb k1 k) eqn:E; [done|].
  intros Hl. destruct i as [|i]; simpl.
  - by intros [= <- <-].
  - by apply IH.
Qed.

Lemma nodup_keys_distinct (d : dict) :
  exact_dict d -> nodup_keys d -> distinct_keys d.
Proof.
  intros Hd. induction Hd as [|[k v] d Hk Hd IH]; simpl.
  - by intros _ i j k1 v1 k2 v2 Hi.
  - intros [Hfresh Hnd] i j k1 v1 k2 v2 Hi Hj Heq.
    destruct i as [|i], j as [|j]; simpl in *.
    + done.
    + injection Hi as <- <-.
      pose proof (dict_lookup_None _ _ _ _ _ Hfresh Hj) as Hne.
      assert (exact_key k2 = true).
      { by apply (Forall_lookup_1 _ _ _ _ Hd Hj). }
      rewrite key_eqb_sym in Hne by done. congruence.
    + injection Hj as <- <-.
      pose proof (dict_lookup_None _ _ _ _ _ Hfresh Hi) as Hne. congruence.
    + f_equal. by apply (IH Hnd i j k1 v1 k2 v2).
Qed.

(** *** Durations and their sums *)

Lemma exec_duration_is_duration (item : pyval) :
  is_duration (exec_duration_of item).
Proof.
  unfold exec_duration_of, try_except.
  destruct (py_get item _ _) as [d|e]; simpl; [|by left].
  destruct (py_float d) as [f|e]; simpl; [right; by exists f|by left].
Qed.

Lemma py_add_duration (t x : pyval) :
  is_Some (float_of_int 0) ->
  is_duration t -> is_duration x ->
  exists t', py_add t x = Ok t' /\ is_duration t'.
Proof.
  intros [z0 Hz0] [->|[f ->]] [->|[g ->]]; simpl;
    unfold int_to_float; rewrite ?Hz0; simpl; eexists; (split; [done|]).
  - by left.
  - right. by eexists.
  - right. by eexists.
  - right. by eexists.
Qed.

Lemma py_sum_from_snoc (acc : pyval) (xs : list pyval) (x : pyval) :
  py_sum_from acc (xs ++ [x]) = (t ← py_sum_from acc xs; py_add t x).
Proof.
  revert acc. induction xs as [|y xs IH]; intros acc; simpl.
  - by destruct (py_add acc x).
  - destruct (py_add acc y); simpl; [apply IH|done].
Qed.

Lemma py_sum_snoc (xs : list pyval) (x : pyval) :
  py_sum (xs ++ [x]) = (t ← py_sum xs; py_add t x).
Proof. apply py_sum_from_snoc. Qed.

Lemma py_sum_durations (xs : list pyval) :
  is_Some (float_of_int 0) ->
  Forall is_duration xs ->
  exists t, py_sum xs = Ok t /\ is_duration t.
Proof.
  intros Hz0. induction xs as [|x xs IH] using rev_ind; intros Hxs.
  - exists (PInt 0). split; [done|by left].
  - apply Forall_app in Hxs as [Hxs Hx%Forall_inv].
    destruct (IH Hxs) as (t & Ht & Hdur). rewrite py_sum_snoc, Ht.
    by apply py_add_duration.
Qed.

Lemma total_for_duration (records : list pyval) (k : pyval) :
  is_Some (float_of_int 0) ->
  exists t, total_for records k = Ok t /\ is_duration t.
Proof.
  intros Hz0. apply py_sum_durations; [done|].
  apply List.Forall_forall. intros x (item & <- & _)%in_map_iff.
  apply exec_duration_is_duration.
Qed.

Lemma matching_snoc (k : pyval) (records : list pyval) (item : pyval) :
  matching k (records ++ [item]) =
  matching k records ++
    (if key_eqb (app_name_of item) k then [item] else []).
Proof. unfold matching. by rewrite List.filter_app. Qed.

Lemma matching_congr (a b : pyval) (records : list pyval) :
  exact_key a = true -> exact_key b = true ->
  Forall named_record records ->
  key_eqb a b = true -> matching a records = matching b records.
Proof.
  intros Ha Hb Hrec Hab. unfold matching. apply List.filter_ext_in.
  intros item Hin. rewrite List.Forall_forall in Hrec.
  destruct (Hrec item Hin) as (name & Hname & Hexact).
  unfold app_name_of. rewrite Hname.
  rewrite !(key_eqb_sym name) by done. by apply key_eqb_congr.
Qed.

(** *** The aggregation loops *)

Lemma duration_loop_guarded (items : list pyval) :
  duration_loop items = for_each (guarded_body (fun _ => true)) items [].
Proof. reflexivity. Qed.

Lemma summary_loop_guarded (items : list pyval) :
  summary_loop items = for_each (guarded_body truthy) items [].
Proof. reflexivity. Qed.

Section Loop.
Variable guard : pyval -> bool.
Hypothesis guard_congr : forall a b,
  exact_key a = true -> exact_key b = true ->
  key_eqb a b = true -> guard a = guard b.
Hypothesis float_of_zero : is_Some (float_of_int 0).

Lemma hashable_exact (k : pyval) : exact_key k = true -> hashable k = Ok ().
Proof. by destruct k. Qed.

Lemma loop_inv_step (dm : dict) (processed : list pyval) (item : pyval) :
  Forall named_record processed -> named_record item ->
  loop_inv guard dm processed ->
  exists dm', guarded_body guard dm item = Ok dm' /\
    loop_inv guard dm' (processed ++ [item]).
Proof using guard_congr float_of_zero.
  intros Hproc (name & Hname & Hexact) (Hdm & Hnd & Hlook).
  assert (Hitem : app_name_of item = name)
    by (unfold app_name_of; by rewrite Hname).
  unfold guarded_body. rewrite Hname. cbn [mbind result_bind].
  destruct (guard name) eqn:Hg.
  - (* the record is aggregated *)
    unfold dict_get, dict_set. rewrite hashable_exact by done.
    cbn [mbind result_bind].
    set (t := match dict_lookup dm name with Some v => v | None => PInt 0 end).
    assert (Ht : total_for processed name = Ok t).
    { subst t. specialize (Hlook name Hexact).
      destruct (dict_lookup dm name) as [v|]; [tauto|].
      destruct Hlook as [Hlook|Hlook]; [congruence|].
      unfold total_for. by rewrite Hlook. }
    destruct (total_for_duration processed name float_of_zero)
      as (t0 & Ht0 & Hdur).
    assert (t0 = t) as -> by congruence.
    destruct (py_add_duration t (exec_duration_of item) float_of_zero Hdur
                (exec_duration_is_duration item)) as (t' & Hadd & _).
    rewrite Hadd. cbn [mbind result_bind].
    eexists. split; [done|].
    split; [by apply dict_store_exact|].
    split; [by apply dict_store_nodup|].
    intros k Hk. rewrite dict_lookup_store by done.
    rewrite matching_snoc. unfold total_for. rewrite matching_snoc, Hitem.
    destruct (key_eqb name k) eqn:E; cbv iota.
    + split; [by rewrite <- (guard_congr name k)|].
      split; [by destruct (matching k processed)|].
      rewrite map_app. cbn [map]. rewrite py_sum_snoc.
      rewrite <- (matching_congr name k) by done.
      fold (total_for processed name). rewrite Ht. exact Hadd.
    + rewrite !app_nil_r. apply (Hlook k Hk).
  - (* the record is skipped *)
    exists dm. split; [done|]. split; [done|]. split; [done|].
    intros k Hk. specialize (Hlook k Hk).
    rewrite matching_snoc. unfold total_for. rewrite matching_snoc, Hitem.
    destruct (key_eqb name k) eqn:E; cbv iota.
    + assert (guard k = false) by (by rewrite <- (guard_congr name k)).
      destruct (dict_lookup dm k); [|by left].
      destruct Hlook; congruence.
    + by rewrite !app_nil_r.
Qed.

Lemma loop_inv_run (items processed : list pyval) (dm : dict) :
  Forall named_record processed -> Forall named_record items ->
  loop_inv guard dm processed ->
  exists dm', for_each (guarded_body guard) items dm = Ok dm' /\
    loop_inv guard dm' (processed ++ items).
Proof using guard_congr float_of_zero.
  revert processed dm.
  induction items as [|item items IH]; intros processed dm Hproc Hitems Hinv.
  - exists dm. by rewrite app_nil_r.
  - apply Forall_cons in Hitems as [Hitem Hitems].
    destruct (loop_inv_step dm processed item Hproc Hitem Hinv)
      as (dm1 & Hstep & Hinv1).
    destruct (IH (processed ++ [item]) dm1) as (dm' & Hrun & Hinv').
    { apply Forall_app. split; [done|by constructor]. }
    { done. }
    { done. }
    exists dm'. simpl. rewrite Hstep. cbn [mbind result_bind].
    split; [done|]. by rewrite <- app_assoc in Hinv'.
Qed.

Lemma loop_inv_init : loop_inv guard [] [].
Proof using Type.
  split; [constructor|]. split; [done|]. intros k _. by right.
Qed.

End Loop.

Lemma dict_lookup_at (d : dict) (i : nat) (k v : pyval) :
  exact_dict d -> nodup_keys d ->
  d !! i = Some (k, v) -> dict_lookup d k = Some v.
Proof.
  intros Hd. revert i.
  induction Hd as [|[k1 v1] d Hk1 Hd IH]; intros i; simpl; [done|].
  intros [Hfresh Hnd] Hi. destruct i as [|i]; simpl in Hi.
  - injection Hi as -> ->. by rewrite key_eqb_refl.
  - assert (exact_key k = true) by (by apply (Forall_lookup_1 _ _ _ _ Hd Hi)).
    pose proof (dict_lookup_None _ _ _ _ _ Hfresh Hi) as Hne.
    rewrite key_eqb_sym in Hne by done. rewrite Hne. by apply (IH i).
Qed.

Lemma truthy_congr (a b : pyval) :
  exact_key a = true -> exact_key b = true ->
  key_eqb a b = true -> truthy a = truthy b.
Proof.
  intros Ha Hb. rewrite key_eqb_canon by done.
  intros Hab%bool_decide_eq_true.
  destruct a, b; try done; simpl in *; simplify_eq; try done.
  all: repeat match goal with b : bool |- _ => destruct b end; try done.
Qed.

(** The outcome of the loop of [datatransformation]. *)
Lemma duration_loop_spec (records : list pyval) :
  is_Some (float_of_int 0) ->
  Forall named_record records ->
  exists dm, duration_loop records = Ok dm /\
    loop_inv (fun _ => true) dm records.
Proof.
  intros Hz0 Hrec. rewrite duration_loop_guarded.
  apply (loop_inv_run (fun _ => true) ltac:(done) Hz0 records [] []);
    [constructor|done|apply loop_inv_init].
Qed.

(** The outcome of the loop of [datatransformation_summary]. *)
Lemma summary_loop_spec (records : list pyval) :
  is_Some (float_of_int 0) ->
  Forall named_record records ->
  exists dm, summary_loop records = Ok dm /\ loop_inv truthy dm records.
Proof.
  intros Hz0 Hrec. rewrite summary_loop_guarded.
  apply (loop_inv_run truthy truthy_congr Hz0 records [] []);
    [constructor|done|apply loop_inv_init].
Qed.

Lemma loop_inv_lookup (guard : pyval -> bool) (dm : dict)
    (records : list pyval) (k total : pyval) :
  is_Some (float_of_int 0) ->
  loop_inv guard dm records -> exact_key k = true ->
  dict_lookup dm k = Some total <->
  guard k = true /\ matching k records <> [] /\ total_for records k = Ok total.
Proof.
  intros Hz0 (_ & _ & Hlook) Hk. specialize (Hlook k Hk).
  destruct (dict_lookup dm k) as [t|].
  - destruct Hlook as (Hg & Hm & Ht). split.
    + by intros [= ->].
    + intros (_ & _ & Ht'). congruence.
  - split; [done|]. intros (Hg & Hm & _). destruct Hlook; congruence.
Qed.

(** *** Rendering the totals *)

Lemma json_dumps_exact (k : pyval) :
  exact_key k = true -> json_dumps k = Ok ().
Proof. by destruct k. Qed.

Lemma json_key_exact (k : pyval) : exact_key k = true -> json_key k = Ok ().
Proof. by destruct k. Qed.

Lemma json_dumps_duration (t : pyval) :
  is_duration t ->
  json_dumps t = if finite_total t then Ok () else Err out_of_range.
Proof. by intros [->|[f ->]]. Qed.

(** The totals of a loop are durations. *)
Lemma loop_inv_durations (guard : pyval -> bool) (dm : dict)
    (records : list pyval) :
  is_Some (float_of_int 0) ->
  loop_inv guard dm records -> Forall (fun kv => is_duration kv.2) dm.
Proof.
  intros Hz0 Hinv. pose proof Hinv as (Hd & Hnd & _).
  apply Forall_lookup_2. intros i [k t] Hi. simpl.
  assert (Hk : exact_key k = true)
    by (by apply (Forall_lookup_1 _ _ _ _ Hd Hi)).
  apply (dict_lookup_at _ _ _ _ Hd Hnd) in Hi.
  apply (loop_inv_lookup _ _ _ _ _ Hz0 Hinv Hk) in Hi as (_ & _ & Ht).
  destruct (total_for_duration records k Hz0) as (t0 & Ht0 & Hdur).
  congruence.
Qed.

(** [processed_data] renders exactly when every total is finite. *)
Lemma json_dumps_entries (dm : dict) :
  exact_dict dm -> Forall (fun kv => is_duration kv.2) dm ->
  for_each (fun _ x => json_dumps x) (map entry dm) () =
  if finite_totals dm then Ok () else Err out_of_range.
Proof.
  intros Hd Hdur.
  induction dm as [|[k t] dm IH]; [done|].
  apply Forall_cons in Hd as [Hk Hd]. apply Forall_cons in Hdur as [Ht Hdur].
  simpl in Hk, Ht. cbn [map for_each entry json_dumps json_key].
  rewrite (json_dumps_exact k Hk), (json_dumps_duration t Ht).
  cbn [finite_totals forallb snd]. fold (finite_totals dm).
  destruct (finite_total t); cbn [mbind result_bind andb]; [|done].
  by apply IH.
Qed.

Lemma render_records (dm : dict) :
  exact_dict dm -> Forall (fun kv => is_duration kv.2) dm ->
  JSONResponse_init (PDict [(PStr "records", PList (map entry dm))]) 200 =
  if finite_totals dm then
    Ok {| content := PDict [(PStr "records", PList (map entry dm))];
          status_code := 200 |}
  else Err out_of_range.
Proof.
  intros Hd Hdur. unfold JSONResponse_init.
  cbn [json_dumps for_each json_key mbind result_bind].
  rewrite (json_dumps_entries dm Hd Hdur).
  by destruct (finite_totals dm).
Qed.

(** The dict of the summary renders exactly when every total is finite. *)
Lemma render_summary (dm : dict) :
  exact_dict dm -> Forall (fun kv => is_duration kv.2) dm ->
  JSONResponse_init (PDict dm) 200 =
  if finite_totals dm then Ok {| content := PDict dm; status_code := 200 |}
  else Err out_of_range.
Proof.
  intros Hd Hdur. unfold JSONResponse_init.
  assert (Hdump : json_dumps (PDict dm) =
            if finite_totals dm then Ok () else Err out_of_range).
  { clear -Hd Hdur. induction dm as [|[k t] dm IH]; [done|].
    apply Forall_cons in Hd as [Hk Hd].
    apply Forall_cons in Hdur as [Ht Hdur].
    simpl in Hk, Ht. cbn [json_dumps for_each].
    rewrite (json_key_exact k Hk), (json_dumps_duration t Ht).
    cbn [finite_totals forallb snd]. fold (finite_totals dm).
    destruct (finite_total t); cbn [mbind result_bind andb]; [|done].
    by apply IH. }
  rewrite Hdump. by destruct (finite_totals dm).
Qed.

(** A content that holds one string renders: the response of ingestion,
    and that of [/rag_query] for an answer that is a string, are the ones
    the constructor returns. *)
Lemma string_content_renders (k s : string) (status : Z) :
  JSONResponse_init (PDict [(PStr k, PStr s)]) status =
  Ok {| content := PDict [(PStr k, PStr s)]; status_code := status |}.
Proof. reflexivity. Qed.

Lemma finite_totals_lookup (d : dict) (k t : pyval) :
  finite_totals d = true -> dict_lookup d k = Some t -> finite_total t = true.
Proof.
  intros Hall Hl. destruct (dict_lookup_elem _ _ _ Hl) as (i & k' & Hi & _).
  unfold finite_totals in Hall. rewrite List.forallb_forall in Hall.
  apply (Hall (k', t)). apply list_elem_of_In. by eapply list_elem_of_lookup_2.
Qed.

(** The application names [if app_name:] refuses, among the exact keys. *)
Lemma falsy_exact_key (k : pyval) :
  exact_key k = true ->
  truthy k = false <->
  k = PNone \/ k = PBool false \/ k = PInt 0 \/ k = PStr "".
Proof.
  intros Hk. destruct k as [|b|z| |s| |]; try done; simpl.
  - tauto.
  - destruct b; split; try done; [by intros [|[|[|]]]|tauto].
  - rewrite negb_false_iff, Z.eqb_eq. split.
    + intros ->. tauto.
    + by intros [|[|[[= ->]|]]].
  - rewrite negb_false_iff. split.
    + intros ->%String.eqb_eq. tauto.
    + intros [|[|[|[= ->]]]]; done.
Qed.

(** C8: for every list of records whose application names are exact keys,
    the loop of [POST /datatransformation] ends with one total per distinct
    application name: the total of a name is the sum, as [sum] computes it
    in input order, of the durations of exactly the records with that name,
    where the duration of a record is [float] of its field, float zero when
    the field is missing, and the integer 0 when [float] raises.  The
    endpoint answers 200 with these totals when every one of them is
    finite; when a total is an infinity or a NaN, [JSONResponse] raises
    [ValueError] and the request ends with status 500, without totals. *)
Theorem datatransformation_sums (req_body : pyval) (records : list pyval) :
  is_Some (float_of_int 0) ->
  py_get req_body (PStr "body") (PList []) = Ok (PList records) ->
  Forall named_record records ->
  exists duration_map : dict,
    datatransformation (Ok req_body) =
      (if finite_totals duration_map then
         Ok {| content :=
                 PDict [(PStr "records", PList (map entry duration_map))];
               status_code := 200 |}
       else Err out_of_range) /\
    http_status (datatransformation (Ok req_body)) =
      (if finite_totals duration_map then 200 else 500) /\
    distinct_keys duration_map /\
    (forall (i : nat) (k total : pyval),
       duration_map !! i = Some (k, total) ->
       matching k records <> [] /\ total_for records k = Ok total) /\
    (forall item : pyval, item ∈ records ->
       exists (i : nat) (k total : pyval),
         duration_map !! i = Some (k, total) /\
         key_eqb k (app_name_of item) = true) /\
    (forall d : dict, PDict d ∈ records ->
       exec_duration_of (PDict d) =
       match dict_lookup d (PStr "execution duration") with
       | Some v =>
           match py_float v with Ok f => PFloat f | Err _ => PInt 0 end
       | None =>
           match float_of_int 0 with Some z => PFloat z | None => PInt 0 end
       end).
Proof.
  intros Hz0 Hbody Hrec.
  destruct (duration_loop_spec records Hz0 Hrec) as (dm & Hloop & Hinv).
  assert (Heq : datatransformation (Ok req_body) =
            if finite_totals dm then
              Ok {| content := PDict [(PStr "records", PList (map entry dm))];
                    status_code := 200 |}
            else Err out_of_range).
  { unfold datatransformation, try_except. cbn [mbind result_bind].
    rewrite Hbody. cbn [mbind result_bind py_iter]. rewrite Hloop.
    cbn [mbind result_bind].
    apply (render_records dm); [apply Hinv|by eapply loop_inv_durations]. }
  exists dm. split; [exact Heq|]. split; [|split; [|split; [|split]]].
  - rewrite Heq. by destruct (finite_totals dm).
  - destruct Hinv as (Hd & Hnd & _). by apply nodup_keys_distinct.
  - intros i k total Hi.
    pose proof Hinv as (Hd & Hnd & _).
    assert (Hk : exact_key k = true)
      by (by apply (Forall_lookup_1 _ _ _ _ Hd Hi)).
    apply (dict_lookup_at _ _ _ _ Hd Hnd) in Hi.
    apply (loop_inv_lookup _ _ _ _ _ Hz0 Hinv Hk) in Hi. tauto.
  - intros item Hin.
    rewrite List.Forall_forall in Hrec.
    destruct (Hrec item) as (name & Hname & Hexact);
      [by apply list_elem_of_In|].
    assert (Hitem : app_name_of item = name)
      by (unfold app_name_of; by rewrite Hname).
    destruct (total_for_duration records name Hz0) as (t & Ht & _).
    assert (Hm : matching name records <> []).
    { intros Hnil. apply list_elem_of_In in Hin.
      assert (Hin' : In item (matching name records)).
      { apply List.filter_In. split; [done|].
        rewrite Hitem. by apply key_eqb_refl. }
      by rewrite Hnil in Hin'. }
    assert (Hl : dict_lookup dm name = Some t)
      by (by apply (loop_inv_lookup _ _ _ _ _ Hz0 Hinv Hexact)).
    destruct (dict_lookup_elem _ _ _ Hl) as (i & k & Hi & Hk).
    exists i, k, t. by rewrite Hitem.
  - intros d _. unfold exec_duration_of, try_except, py_get, dict_get.
    cbn [hashable mbind result_bind].
    destruct (dict_lookup d (PStr "execution duration")) as [v|].
    + by destruct (py_float v).
    + cbn [py_float]. unfold int_to_float. by destruct (float_of_int 0).
Qed.

(** C10: for every list of records whose application names are exact keys,
    [/datatransformation_summary] omits the records whose application name
    is falsy, which are those whose name is missing, the empty string, [0],
    [false] or [null]: it has no total under such a name, while
    [/datatransformation] holds under each such name the sum of the records
    that have it, the records without a name among those of the empty
    string.  Under every other name the two endpoints hold the same total.
    Each endpoint answers 200 when every total it holds is finite and raises
    [ValueError] otherwise; the summary answers whenever
    [/datatransformation] does. *)
Theorem summary_omits_unnamed (req_body : pyval) (records : list pyval) :
  is_Some (float_of_int 0) ->
  py_get req_body (PStr "body") (PList []) = Ok (PList records) ->
  Forall named_record records ->
  exists duration_map summary_map : dict,
    datatransformation (Ok req_body) =
      (if finite_totals duration_map then
         Ok {| content :=
                 PDict [(PStr "records", PList (map entry duration_map))];
               status_code := 200 |}
       else Err out_of_range) /\
    datatransformation_summary (Ok req_body) =
      (if finite_totals summary_map then
         Ok {| content := PDict summary_map; status_code := 200 |}
       else Err out_of_range) /\
    (finite_totals duration_map = true -> finite_totals summary_map = true) /\
    (forall k : pyval, exact_key k = true ->
       dict_lookup summary_map k =
       if truthy k then dict_lookup duration_map k else None) /\
    (forall k : pyval, exact_key k = true ->
       truthy k = false <->
       k = PNone \/ k = PBool false \/ k = PInt 0 \/ k = PStr "") /\
    (forall k total : pyval, exact_key k = true ->
       dict_lookup summary_map k = Some total <->
       truthy k = true /\ matching k records <> [] /\
       total_for records k = Ok total) /\
    (forall k : pyval, exact_key k = true -> truthy k = false ->
       matching k records <> [] ->
       exists total,
         dict_lookup duration_map k = Some total /\
         total_for records k = Ok total) /\
    (forall d : dict, PDict d ∈ records ->
       dict_lookup d (PStr "application name") = None ->
       PDict d ∈ matching (PStr "") records).
Proof.
  intros Hz0 Hbody Hrec.
  destruct (duration_loop_spec records Hz0 Hrec) as (dm & Hloop & Hinv).
  destruct (summary_loop_spec records Hz0 Hrec) as (sm & Hsloop & Hsinv).
  assert (Hdict : exists d, req_body = PDict d).
  { destruct req_body; try done. by eexists. }
  destruct Hdict as [d ->].
  assert (Hlook : forall k : pyval, exact_key k = true ->
            dict_lookup sm k = if truthy k then dict_lookup dm k else None).
  { intros k Hk. destruct (dict_lookup sm k) as [t|] eqn:Es.
    - apply (loop_inv_lookup _ _ _ _ _ Hz0 Hsinv Hk) in Es
        as (Htruthy & Hm & Ht).
      rewrite Htruthy. symmetry.
      by apply (loop_inv_lookup _ _ _ _ _ Hz0 Hinv Hk).
    - destruct (truthy k) eqn:Etruthy; [|done].
      destruct (dict_lookup dm k) as [t|] eqn:Ed; [|done].
      apply (loop_inv_lookup _ _ _ _ _ Hz0 Hinv Hk) in Ed as (_ & Hm & Ht).
      rewrite <- Es.
      by apply (loop_inv_lookup _ _ _ _ _ Hz0 Hsinv Hk). }
  exists dm, sm.
  split; [|split; [|split; [|split; [|split; [|split; [|split]]]]]].
  - unfold datatransformation, try_except. cbn [mbind result_bind].
    rewrite Hbody. cbn [mbind result_bind py_iter]. rewrite Hloop.
    cbn [mbind result_bind].
    apply (render_records dm); [apply Hinv|by eapply loop_inv_durations].
  - unfold datatransformation_summary, try_except. cbn [mbind result_bind].
    rewrite Hbody. cbn [mbind result_bind py_iter]. rewrite Hsloop.
    cbn [mbind result_bind].
    apply (render_summary sm); [apply Hsinv|by eapply loop_inv_durations].
  - intros Hall. unfold finite_totals. apply List.forallb_forall.
    intros [k t] Hin. simpl.
    apply list_elem_of_In, list_elem_of_lookup_1 in Hin as [i Hi].
    pose proof Hsinv as (Hd & Hnd & _).
    assert (Hk : exact_key k = true)
      by (by apply (Forall_lookup_1 _ _ _ _ Hd Hi)).
    apply (dict_lookup_at _ _ _ _ Hd Hnd) in Hi.
    rewrite (Hlook k Hk) in Hi.
    destruct (truthy k); [|done].
    by apply (finite_totals_lookup dm k t).
  - exact Hlook.
  - apply falsy_exact_key.
  - intros k total Hk.
    apply (loop_inv_lookup _ _ _ _ _ Hz0 Hsinv Hk).
  - intros k Hk _ Hm.
    destruct (total_for_duration records k Hz0) as (t & Ht & _).
    exists t. split; [|done].
    by apply (loop_inv_lookup _ _ _ _ _ Hz0 Hinv).
  - intros item Hin Hmissing. apply list_elem_of_In.
    apply List.filter_In. split; [by apply list_elem_of_In|].
    unfold app_name_of, py_get, dict_get.
    cbn [hashable mbind result_bind]. by rewrite Hmissing.
Qed.

End Aggregation.

(** ** The pipeline *)

Section PipelineProps.
Context {PF : PyFloat} {Ext : External}.

Lemma strings_of_PStr (texts : list string) :
  strings_of (map PStr texts) = Ok texts.
Proof.
  induction texts as [|t texts IH]; simpl; [done|]. by rewrite IH.
Qed.

Lemma comprehension_match_text (ms : list pyval) (texts : list string) :
  Forall2 match_text ms texts ->
  comprehension
    (fun m => metadata ← py_getitem m (PStr "metadata");
              py_getitem metadata (PStr "text")) ms
  = Ok (map PStr texts).
Proof.
  induction 1 as [|m t ms texts (md & Hmd & Ht) _ IH]; simpl; [done|].
  rewrite Hmd. cbn [mbind result_bind]. rewrite Ht, IH. done.
Qed.

(** C5: for every query and every list of matches the index returns, each
    carrying a text, [retrieve_similar_chunks] returns the texts of the
    matches, in the order of the matches, joined by newlines; with no match
    it returns the empty string and does not raise. *)
Theorem retrieve_joins_texts (index : gmap string (list float * pyval))
    (query : string)
    (embedding_model : list string -> result (list (list float)))
    (top_k : Z) (query_embedding : list (list float)) (results : pyval)
    (matches : list pyval) (texts : list string) :
  embedding_model [query] = Ok query_embedding ->
  index_query index query_embedding top_k = Ok results ->
  py_get results (PStr "matches") (PList []) = Ok (PList matches) ->
  Forall2 match_text matches texts ->
  retrieve_similar_chunks index query embedding_model top_k =
    Ok (Py.join newline texts) /\
  (matches = [] ->
   retrieve_similar_chunks index query embedding_model top_k = Ok "").
Proof.
  intros Hemb Hquery Hmatches Htexts.
  assert (Hret : retrieve_similar_chunks index query embedding_model top_k =
                 Ok (Py.join newline texts)).
  { unfold retrieve_similar_chunks. rewrite Hemb. cbn [mbind result_bind].
    rewrite Hquery. cbn [mbind result_bind]. rewrite Hmatches.
    cbn [mbind result_bind py_iter].
    rewrite (comprehension_match_text matches texts Htexts).
    cbn [mbind result_bind]. unfold py_join. by rewrite strings_of_PStr. }
  split; [done|]. intros ->. apply Forall2_nil_inv_l in Htexts as ->.
  exact Hret.
Qed.

(** C6: for every response of the answering service whose status is not
    200, [query_gemini] returns, without raising, the string made of
    [Error: ] followed by the body of the response. *)
Theorem query_gemini_error (query context : string)
    (response : HTTPResponse) :
  requests_post gemini_url (gemini_payload query context) gemini_headers
    = Ok response ->
  response_status_code response <> 200 ->
  query_gemini query context =
    Ok (PStr ("Error: " +:+ response_text response)) /\
  exists prefix suffix : string,
    "Error: " +:+ response_text response =
    prefix +:+ response_text response +:+ suffix.
Proof.
  intros Hpost Hstatus. split.
  - unfold query_gemini. rewrite Hpost. cbn [mbind result_bind].
    by destruct (Z.eqb_spec (response_status_code response) 200).
  - exists "Error: ", "". by rewrite string_app_nil_r.
Qed.

(** *** Ingestion *)

(** C2, as the code has it: for every request body in which [drive_id] or
    [object_id] is missing or empty, the [HTTPException] with status 400
    raised in the [try] block is caught by [except Exception], and the
    endpoint raises an [HTTPException] with status 500; the world is left
    as it was. *)
Theorem ingestion_missing_field_status (d : dict) (w : World) :
  truthy (default PNone (dict_lookup d (PStr "drive_id"))) = false \/
  truthy (default PNone (dict_lookup d (PStr "object_id"))) = false ->
  process_onedrive_document (Ok (PDict d)) w =
    (Err (internal_error missing_field), w) /\
  http_status (process_onedrive_document (Ok (PDict d)) w).1 = 500.
Proof.
  intros Hmissing.
  assert (Heq : process_onedrive_document (Ok (PDict d)) w =
                (Err (internal_error missing_field), w)).
  { unfold process_onedrive_document, process_onedrive_document_body,
      mbind, M_mbind, M_bind, raise, lift, py_get, dict_get.
    cbn [hashable mbind result_bind].
    destruct (dict_lookup d (PStr "drive_id")) as [drive_id|];
      destruct (dict_lookup d (PStr "object_id")) as [object_id|];
      simpl in Hmissing; destruct Hmissing as [Hm|Hm];
      rewrite ?Hm; cbn [negb orb truthy]; rewrite ?orb_true_r; done. }
  by rewrite Heq.
Qed.

Lemma M_for_ext {A} (f g : A -> M unit) (items : list A) (w : World) :
  (forall x, f x = g x) -> M_for f items w = M_for g items w.
Proof.
  intros Hfg. revert w. induction items as [|x items IH]; intros w; [done|].
  simpl. unfold M_bind. rewrite Hfg.
  destruct (g x w) as [[[]|e] w']; [apply IH|done].
Qed.

(** The upsert loop under a fault schedule whose first fault is at call
    [j]: the first [j] records are stored and the loop ends with the
    fault. *)
Lemma M_for_first_fault {A} (rec : A -> string * list float * pyval)
    (items : list A) (w : World) (j : nat) (e : exn)
    (rest : list (option exn)) :
  faults w = replicate j None ++ Some e :: rest ->
  (j < length items)%nat ->
  M_for (fun x => index_upsert [rec x]) items w =
  (Err e, {| index := fold_left upsert_one (take j (map rec items)) (index w);
             faults := rest |}).
Proof.
  revert items w. induction j as [|j IH]; intros items w Hfaults Hlen.
  - destruct items as [|x items]; [simpl in Hlen; lia|].
    simpl. unfold M_bind, index_upsert. by rewrite Hfaults.
  - destruct items as [|x items]; [simpl in Hlen; lia|].
    simpl. unfold M_bind at 1. unfold index_upsert at 1.
    rewrite Hfaults. simpl.
    rewrite IH; [done|done|simpl in Hlen; lia].
Qed.

Lemma fold_upsert_other (rs : list (string * list float * pyval))
    (idx : gmap string (list float * pyval)) (id : string) :
  (forall k r, rs !! k = Some r -> r.1.1 <> id) ->
  fold_left upsert_one rs idx !! id = idx !! id.
Proof.
  revert idx. induction rs as [|[[id' v] m] rs IH]; intros idx Hne; [done|].
  simpl. rewrite IH.
  - apply lookup_insert_ne. apply (Hne 0%nat (id', v, m)). done.
  - intros k r Hk. apply (Hne (S k) r Hk).
Qed.

Lemma fold_upsert_at (rs : list (string * list float * pyval))
    (idx : gmap string (list float * pyval)) (k : nat) (id : string)
    (v : list float) (m : pyval) :
  rs !! k = Some (id, v, m) ->
  (forall k' r, rs !! k' = Some r -> k' <> k -> r.1.1 <> id) ->
  fold_left upsert_one rs idx !! id = Some (v, m).
Proof.
  revert idx k. induction rs as [|[[id' v'] m'] rs IH]; intros idx k Hk Hne;
    [done|].
  destruct k as [|k]; simpl in *.
  - injection Hk as -> -> ->. rewrite fold_upsert_other.
    + apply lookup_insert_eq.
    + intros k r Hr. by apply (Hne (S k) r Hr).
  - apply (IH _ k Hk). intros k' r Hr Hkk.
    apply (Hne (S k') r Hr). lia.
Qed.

Lemma record_id_inj (object_id : pyval) (i i' : nat) :
  record_id object_id i = record_id object_id i' -> i = i'.
Proof.
  unfold record_id. intros Heq.
  apply (inj (String.app _)) in Heq. apply (inj (String.app _)) in Heq.
  by apply (inj pretty) in Heq.
Qed.

Lemma enumerate_lookup {A} (l : list A) (k : nat) :
  enumerate l !! k = (fun x => (k, x)) <$> l !! k.
Proof.
  unfold enumerate. rewrite lookup_zip_with.
  destruct (l !! k) as [x|] eqn:E.
  - rewrite lookup_seq_lt by (by eapply lookup_lt_Some). done.
  - by destruct (seq 0 (length l) !! k).
Qed.

Lemma records_lookup (object_id : pyval) (text_chunks : list string)
    (embeddings : list (list float)) (k : nat)
    (r : string * list float * pyval) :
  map (record_of object_id) (enumerate (zip text_chunks embeddings)) !! k
    = Some r ->
  exists chunk embedding,
    text_chunks !! k = Some chunk /\ embeddings !! k = Some embedding /\
    r = chunk_record object_id k chunk embedding.
Proof.
  change (map (record_of object_id) ?l) with (record_of object_id <$> l).
  rewrite list_lookup_fmap, enumerate_lookup, lookup_zip_with.
  destruct (text_chunks !! k) as [chunk|]; [|done].
  destruct (embeddings !! k) as [embedding|]; [|done].
  simpl. intros [= <-]. by exists chunk, embedding.
Qed.

(** C7: when the embedding of the chunks of a document fails, nothing is
    upserted and the request fails with status 500; when the index
    service fails at the upsert of chunk [j] after accepting those before
    it, the request fails with status 500 carrying that failure, the
    chunks before [j] are in the index with their embedding and text, in
    particular not rolled back, and every other id of the index, the ids of
    the chunks from [j] on among them, is as before the request. *)
Theorem ingestion_aborts_at_first_failure (d : dict) (w : World)
    (drive_id object_id : pyval) (documents text_chunks : list string) :
  py_get (PDict d) (PStr "drive_id") PNone = Ok drive_id ->
  py_get (PDict d) (PStr "object_id") PNone = Ok object_id ->
  truthy drive_id = true -> truthy object_id = true ->
  onedrive_load drive_id [object_id] = Ok documents ->
  chunk_text (Py.join " " documents) default_chunk_size = Ok text_chunks ->
  (forall e : exn,
     embed_text text_chunks = Err e ->
     process_onedrive_document (Ok (PDict d)) w = (Err (internal_error e), w)) /\
  (forall (embeddings : list (list float)) (j : nat) (e : exn)
          (rest : list (option exn)),
     embed_text text_chunks = Ok embeddings ->
     faults w = replicate j None ++ Some e :: rest ->
     (j < length text_chunks)%nat -> (j < length embeddings)%nat ->
     exists index' : gmap string (list float * pyval),
       process_onedrive_document (Ok (PDict d)) w =
         (Err (internal_error e), {| index := index'; faults := rest |}) /\
       (forall (k : nat) (chunk : string) (embedding : list float),
          (k < j)%nat ->
          text_chunks !! k = Some chunk -> embeddings !! k = Some embedding ->
          index' !! record_id object_id k =
            Some (embedding, PDict [(PStr "text", PStr chunk)])) /\
       (forall k : nat, (j <= k)%nat ->
          index' !! record_id object_id k =
          index w !! record_id object_id k) /\
       (forall id : string,
          (forall k : nat, (k < j)%nat -> id <> record_id object_id k) ->
          index' !! id = index w !! id)).
Proof.
  intros Hdrive Hobject Htd Hto Hload Hchunks.
  assert (Hprefix :
    process_onedrive_document_body (Ok (PDict d)) w =
    M_bind (lift (embed_text text_chunks))
      (fun embeddings =>
         M_bind
           (M_for (fun x => index_upsert [record_of object_id x])
              (enumerate (zip text_chunks embeddings)))
           (fun _ => M_ret
              {| content :=
                   PDict [(PStr "message",
                           PStr "Document processed and embeddings stored successfully.")];
                 status_code := 200 |})) w).
  { unfold process_onedrive_document_body, mbind, M_mbind, mret, M_mret.
    unfold M_bind at 1, lift at 1. unfold M_bind at 1, lift at 1.
    rewrite Hdrive. unfold M_bind at 1, lift at 1. rewrite Hobject.
    rewrite Htd, Hto. cbn [negb orb].
    unfold M_bind at 1, lift at 1. rewrite Hload.
    unfold M_bind at 1, lift at 1. rewrite Hchunks.
    unfold M_bind at 1 3, lift.
    destruct (embed_text text_chunks) as [embeddings|e]; [|done].
    unfold M_bind.
    rewrite (M_for_ext _ (fun x => index_upsert [record_of object_id x]));
      [done|].
    by intros [i [chunk embedding]]. }
  split.
  - intros e Hembed. unfold process_onedrive_document.
    rewrite Hprefix. unfold M_bind, lift. by rewrite Hembed.
  - intros embeddings j e rest Hembed Hfaults Hjc Hje.
    set (rs := map (record_of object_id)
                 (enumerate (zip text_chunks embeddings))).
    exists (fold_left upsert_one (take j rs) (index w)).
    assert (Hrs : forall k r, take j rs !! k = Some r ->
              (k < j)%nat /\ exists chunk embedding,
                text_chunks !! k = Some chunk /\
                embeddings !! k = Some embedding /\
                r = chunk_record object_id k chunk embedding).
    { intros k r Hk. apply lookup_take_Some in Hk as [Hk Hlt].
      split; [done|]. by apply records_lookup. }
    split; [|split; [|split]].
    + unfold process_onedrive_document. rewrite Hprefix.
      unfold M_bind at 1, lift. rewrite Hembed. unfold M_bind at 1.
      rewrite (M_for_first_fault (record_of object_id) _ w j e rest Hfaults).
      * done.
      * unfold enumerate. rewrite !length_zip_with, length_seq. lia.
    + intros k chunk embedding Hk Hc He.
      apply (fold_upsert_at _ _ k).
      * rewrite lookup_take_lt by done. subst rs.
        change (map (record_of object_id) ?l) with (record_of object_id <$> l).
        rewrite list_lookup_fmap, enumerate_lookup, lookup_zip_with, Hc, He.
        done.
      * intros k' r Hr Hkk.
        destruct (Hrs k' r Hr) as (_ & c' & e' & _ & _ & ->).
        simpl. intros Heq%record_id_inj. done.
    + intros k Hk. apply fold_upsert_other. intros k' r Hr.
      destruct (Hrs k' r Hr) as (Hlt & c' & e' & _ & _ & ->).
      simpl. intros Heq%record_id_inj. lia.
    + intros id Hid. apply fold_upsert_other. intros k' r Hr.
      destruct (Hrs k' r Hr) as (Hlt & c' & e' & _ & _ & ->).
      simpl. intros <-. by apply (Hid k').
Qed.

End PipelineProps.

(** * Further properties *)

(** ** The chunker *)

(** X1: for a chunk size of at least 2, the number of chunks is the number
    of words divided by the step [chunk_size // 2], rounded up. *)
Theorem chunk_text_count (text : string) (chunk_size : Z) :
  2 <= chunk_size ->
  exists chunks, chunk_text text chunk_size = Ok chunks /\
    Z.of_nat (length chunks) =
    (Py.len (Py.split text) + chunk_size / 2 - 1) / (chunk_size / 2).
Proof.
  intros Hcs. pose proof (half_pos _ Hcs) as Hstep.
  eexists. split; [by apply chunk_text_eq|].
  rewrite length_map, length_seq. unfold Py.range_length, Py.len.
  set (n := Z.of_nat (length (Py.split text))).
  assert (0 <= n) by lia.
  destruct (0 <? chunk_size / 2) eqn:E; [|lia].
  destruct (n <=? 0) eqn:E'.
  - apply Z.leb_le in E'. assert (n = 0) as -> by lia.
    rewrite Z.div_small by lia. done.
  - apply Z.leb_gt in E'.
    replace (n + chunk_size / 2 - 1) with (n - 1 + 1 * (chunk_size / 2)) by lia.
    rewrite Z.div_add by lia.
    replace (n - 0 - 1) with (n - 1) by lia.
    assert (0 <= (n - 1) / (chunk_size / 2)) by (apply Z.div_pos; lia).
    lia.
Qed.

(** X2: every chunk is normalised: joining its words by single spaces
    gives the chunk back, so a chunk has no whitespace but single spaces
    between its words, whatever whitespace the text had. *)
Theorem chunk_text_normalised (text : string) (chunk_size : Z)
    (chunks : list string) (k : nat) (c : string) :
  2 <= chunk_size ->
  chunk_text text chunk_size = Ok chunks ->
  chunks !! k = Some c ->
  Py.join " " (Py.split c) = c /\ Forall is_word (Py.split c).
Proof.
  intros Hcs Heq Hk.
  destruct (chunk_text_lookup text chunk_size Hcs) as (chunks' & Heq' & Hlook).
  assert (chunks' = chunks) as -> by congruence.
  rewrite Hlook in Hk. case_decide; [|done]. injection Hk as <-.
  assert (Hw : Forall is_word
            (take (Z.to_nat chunk_size)
               (drop (k * Z.to_nat (chunk_size / 2)) (Py.split text)))).
  { apply Forall_take, Forall_drop, split_is_word. }
  rewrite split_join by done. done.
Qed.

(** X3: when there are at least two chunks, the last one adds nothing: its
    words are the words of the chunk before it from position
    [chunk_size // 2] on. *)
Theorem chunk_text_last_redundant (text : string) (chunk_size : Z)
    (chunks : list string) (k : nat) (c c' : string) :
  2 <= chunk_size ->
  chunk_text text chunk_size = Ok chunks ->
  chunks !! k = Some c -> chunks !! S k = Some c' ->
  chunks !! S (S k) = None ->
  Py.split c' = drop (Z.to_nat (chunk_size / 2)) (Py.split c) /\
  c' = Py.join " " (drop (Z.to_nat (chunk_size / 2)) (Py.split c)).
Proof.
  intros Hcs Heq Hk Hk' Hend.
  pose proof (half_pos _ Hcs) as Hhalf.
  pose proof (Z.div_mod chunk_size 2 ltac:(lia)) as Hdm.
  pose proof (Z.mod_pos_bound chunk_size 2 ltac:(lia)) as Hmod.
  destruct (chunk_text_lookup text chunk_size Hcs) as (chunks' & Heq' & Hlook).
  assert (chunks' = chunks) as -> by congruence.
  set (step := Z.to_nat (chunk_size / 2)) in *.
  set (size := Z.to_nat chunk_size) in *.
  set (words := Py.split text) in *.
  assert (Hws : Forall is_word words) by apply split_is_word.
  rewrite Hlook in Hk, Hk', Hend.
  repeat case_decide; try done.
  injection Hk as <-. injection Hk' as <-.
  set (W := take size (drop (k * step) words)).
  change (step + k * step)%nat with (S k * step)%nat.
  set (W' := take size (drop (S k * step) words)).
  assert (HW : Py.split (Py.join " " W) = W).
  { apply split_join, Forall_take, Forall_drop, Hws. }
  assert (HW' : Py.split (Py.join " " W') = W').
  { apply split_join, Forall_take, Forall_drop, Hws. }
  assert (Hw : W' = drop step W).
  { subst W W'. apply list_eq. intros i.
    rewrite !lookup_drop, !lookup_take, !lookup_drop.
    destruct (decide (i < size)%nat), (decide (step + i < size)%nat).
    - f_equal. lia.
    - apply lookup_ge_None. nia.
    - lia.
    - done. }
  rewrite HW, HW'. by rewrite Hw.
Qed.

(** ** Aggregation *)

Section Aggregation2.
Context {PF : PyFloat}.

Lemma dict_store_keys (d : dict) (k v : pyval) :
  map fst (dict_store d k v) =
  if existsb (fun k' => key_eqb k' k) (map fst d) then map fst d
  else map fst d ++ [k].
Proof.
  induction d as [|[k' v'] d IH]; simpl; [done|].
  destruct (key_eqb k' k); simpl; [done|].
  rewrite IH. by destruct (existsb _ _).
Qed.

(** What a step of a loop raises is not an [HTTPException]. *)
Lemma guarded_body_raises (guard : pyval -> bool) (dm : dict)
    (item : pyval) (e : exn) :
  guarded_body guard dm item = Err e -> not_http e.
Proof.
  unfold guarded_body, py_get, dict_get, dict_set.
  destruct item; try (by intros [= <-]).
  cbn [hashable mbind result_bind].
  set (name := match dict_lookup d _ with Some v => v | None => PStr "" end).
  destruct (guard name); [|done].
  destruct name; cbn [hashable mbind result_bind];
    try (by intros [= <-]).
  all: match goal with
       | |- context [py_add ?a ?b] => destruct (py_add a b) eqn:Hadd
       end; cbn [mbind result_bind]; try done.
  all: intros [= <-]; revert Hadd; unfold py_add, int_to_float;
    repeat case_match; cbn [mbind result_bind]; by intros [= <-].
Qed.

(** A record that is not a dict ends a loop, whatever was aggregated
    before it. *)
Lemma for_each_malformed (guard : pyval -> bool)
    (before after : list pyval) (x : pyval) (dm : dict) :
  (forall d, x <> PDict d) ->
  exists e, for_each (guarded_body guard) (before ++ x :: after) dm = Err e /\
    not_http e.
Proof.
  intros Hx. revert dm. induction before as [|y before IH]; intros dm; simpl.
  - destruct x; try (eexists; split; [reflexivity|exact I]).
    by destruct (Hx d).
  - destruct (guarded_body guard dm y) as [dm'|e] eqn:Hy;
      cbn [mbind result_bind].
    + apply IH.
    + exists e. split; [done|]. by eapply guarded_body_raises.
Qed.

Lemma not_http_status (e : exn) :
  not_http e -> http_status (Err e) = 500.
Proof. by destruct e. Qed.

(** X4: one record that is not a JSON object fails the whole request of
    either aggregation endpoint: the endpoint raises an exception that is
    not an [HTTPException], answered with status 500, and gives no partial
    totals, whatever the other records are. *)
Theorem aggregation_malformed_record (req_body : pyval)
    (before after : list pyval) (x : pyval) :
  py_get req_body (PStr "body") (PList []) =
    Ok (PList (before ++ x :: after)) ->
  (forall d, x <> PDict d) ->
  (exists e, datatransformation (Ok req_body) = Err e /\
             http_status (datatransformation (Ok req_body)) = 500) /\
  (exists e, datatransformation_summary (Ok req_body) = Err e /\
             http_status (datatransformation_summary (Ok req_body)) = 500).
Proof.
  intros Hbody Hx.
  assert (Hdict : exists d, req_body = PDict d).
  { destruct req_body; try done. by eexists. }
  destruct Hdict as [d ->]. split.
  - destruct (for_each_malformed (fun _ => true) before after x [] Hx)
      as (e & He & Hhttp).
    exists e. unfold datatransformation, try_except.
    cbn [mbind result_bind]. rewrite Hbody. cbn [mbind result_bind py_iter].
    rewrite duration_loop_guarded, He. cbn [mbind result_bind].
    split; [done|]. by apply not_http_status.
  - destruct (for_each_malformed truthy before after x [] Hx)
      as (e & He & Hhttp).
    exists e. unfold datatransformation_summary, try_except.
    cbn [mbind result_bind]. rewrite Hbody. cbn [mbind result_bind py_iter].
    rewrite summary_loop_guarded, He. cbn [mbind result_bind].
    split; [done|]. by apply not_http_status.
Qed.

Lemma guarded_body_keys (dm dm' : dict) (item : pyval) :
  guarded_body (fun _ => true) dm item = Ok dm' ->
  map fst dm' =
  if existsb (fun k => key_eqb k (app_name_of item)) (map fst dm)
  then map fst dm else map fst dm ++ [app_name_of item].
Proof.
  unfold guarded_body, app_name_of.
  destruct (py_get item _ _) as [name|e]; cbn [mbind result_bind]; [|done].
  unfold dict_get, dict_set.
  destruct (hashable name); cbn [mbind result_bind]; [|done].
  destruct (py_add _ _); cbn [mbind result_bind]; [|done].
  intros [= <-]. apply dict_store_keys.
Qed.

Lemma for_each_keys (items : list pyval) (dm dm' : dict) :
  for_each (guarded_body (fun _ => true)) items dm = Ok dm' ->
  map fst dm' =
  fold_left
    (fun keys name =>
       if existsb (fun k => key_eqb k name) keys then keys
       else keys ++ [name])
    (map app_name_of items) (map fst dm).
Proof.
  revert dm. induction items as [|item items IH]; intros dm; simpl.
  - by intros [= <-].
  - destruct (guarded_body _ dm item) as [dm1|e] eqn:Hstep;
      cbn [mbind result_bind]; [|done].
    intros Hrun. rewrite (IH dm1 Hrun).
    by rewrite (guarded_body_keys dm dm1 item Hstep).
Qed.

Lemma first_names_from_length (names keys : list pyval) :
  (length
     (fold_left
        (fun keys name =>
           if existsb (fun k => key_eqb k name) keys then keys
           else keys ++ [name])
        names keys)
   <= length keys + length names)%nat.
Proof.
  revert keys. induction names as [|n names IH]; intros keys; simpl; [lia|].
  etrans; [apply IH|]. destruct (existsb _ _); rewrite ?length_app; simpl; lia.
Qed.

(** X5: when [POST /datatransformation] answers, the entries of its answer
    come in the order in which their application names first appear in the
    input, each name as first written, and there are no more entries than
    records. *)
Theorem datatransformation_order (req_body : pyval) (records : list pyval)
    (response : JSONResponse) :
  py_get req_body (PStr "body") (PList []) = Ok (PList records) ->
  datatransformation (Ok req_body) = Ok response ->
  exists duration_map : dict,
    response =
      {| content := PDict [(PStr "records", PList (map entry duration_map))];
         status_code := 200 |} /\
    map fst duration_map = first_names (map app_name_of records) /\
    (length duration_map <= length records)%nat.
Proof.
  intros Hbody. unfold datatransformation, try_except.
  cbn [mbind result_bind]. rewrite Hbody. cbn [mbind result_bind py_iter].
  destruct (duration_loop records) as [dm|e] eqn:Hloop;
    cbn [mbind result_bind]; [|done].
  unfold JSONResponse_init. destruct (json_dumps _);
    cbn [mbind result_bind]; [|done].
  intros [= <-]. exists dm. split; [done|].
  rewrite duration_loop_guarded in Hloop.
  pose proof (for_each_keys records [] dm Hloop) as Hkeys.
  split; [exact Hkeys|].
  rewrite <- (length_map fst dm), Hkeys, <- (length_map app_name_of records).
  apply (first_names_from_length _ []).
Qed.

(** X6: [POST /datatransformation_summary] takes the list of records bare
    or wrapped in an object under [body], with the same answer, while
    [POST /datatransformation] takes only the wrapped form: sent the bare
    list, it raises [AttributeError], answered with status 500. *)
Theorem summary_accepts_bare_list (req_body : pyval) (records : list pyval) :
  py_get req_body (PStr "body") (PList []) = Ok (PList records) ->
  datatransformation_summary (Ok (PList records)) =
    datatransformation_summary (Ok req_body) /\
  datatransformation (Ok (PList records)) =
    Err (AttributeError "object has no attribute 'get'") /\
  http_status (datatransformation (Ok (PList records))) = 500.
Proof.
  intros Hbody.
  assert (Hdict : exists d, req_body = PDict d).
  { destruct req_body; try done. by eexists. }
  destruct Hdict as [d ->].
  split; [|done].
  unfold datatransformation_summary, try_except.
  cbn [mbind result_bind]. by rewrite Hbody.
Qed.

End Aggregation2.

(** ** The query path *)

Section QueryProps.
Context {PF : PyFloat} {Ext : External}.
Variable non_string_query : pyval -> result JSONResponse.

Lemma getitem_dict (d : dict) (k : string) (v : pyval) :
  dict_lookup d (PStr k) = Some v -> py_getitem (PDict d) (PStr k) = Ok v.
Proof. intros Hk. cbn [py_getitem hashable mbind result_bind]. by rewrite Hk. Qed.

Lemma getitem_dict_missing (d : dict) (k : string) :
  dict_lookup d (PStr k) = None ->
  py_getitem (PDict d) (PStr k) = Err (KeyError "key").
Proof. intros Hk. cbn [py_getitem hashable mbind result_bind]. by rewrite Hk. Qed.

Lemma getitem_first (x : pyval) (l : list pyval) :
  py_getitem (PList (x :: l)) (PInt 0) = Ok x.
Proof.
  cbn [py_getitem]. unfold list_item, seq_index, Py.len. by simpl.
Qed.

(** X7: on a response with status 200, [query_gemini] returns the [text]
    of the first part of the content of the first candidate of the decoded
    body, whatever else the body holds. *)
Theorem query_gemini_first_candidate (query context : string)
    (response : HTTPResponse) (body candidate content part : dict)
    (candidates parts : list pyval) (text : pyval) :
  requests_post gemini_url (gemini_payload query context) gemini_headers
    = Ok response ->
  response_status_code response = 200 ->
  response_json response = Ok (PDict body) ->
  dict_lookup body (PStr "candidates") =
    Some (PList (PDict candidate :: candidates)) ->
  dict_lookup candidate (PStr "content") = Some (PDict content) ->
  dict_lookup content (PStr "parts") = Some (PList (PDict part :: parts)) ->
  dict_lookup part (PStr "text") = Some text ->
  query_gemini query context = Ok text.
Proof.
  intros Hpost Hstatus Hjson Hcandidates Hcontent Hparts Htext.
  unfold query_gemini. rewrite Hpost. cbn [mbind result_bind].
  rewrite Hstatus, Z.eqb_refl, Hjson. cbn [mbind result_bind].
  rewrite (getitem_dict _ _ _ Hcandidates). cbn [mbind result_bind].
  rewrite getitem_first. cbn [mbind result_bind].
  rewrite (getitem_dict _ _ _ Hcontent). cbn [mbind result_bind].
  rewrite (getitem_dict _ _ _ Hparts). cbn [mbind result_bind].
  rewrite getitem_first. cbn [mbind result_bind].
  by apply getitem_dict.
Qed.

(** X8: the error string of [query_gemini] covers only the statuses other
    than 200: on a response with status 200 whose body cannot be decoded,
    has no [candidates], or has an empty list of them, [query_gemini]
    raises. *)
Theorem query_gemini_unusable_body (query context : string)
    (response : HTTPResponse) :
  requests_post gemini_url (gemini_payload query context) gemini_headers
    = Ok response ->
  response_status_code response = 200 ->
  (forall e, response_json response = Err e ->
     query_gemini query context = Err e) /\
  (forall body, response_json response = Ok (PDict body) ->
     dict_lookup body (PStr "candidates") = None ->
     query_gemini query context = Err (KeyError "key")) /\
  (forall body, response_json response = Ok (PDict body) ->
     dict_lookup body (PStr "candidates") = Some (PList []) ->
     query_gemini query context = Err (IndexError "list index out of range")).
Proof.
  intros Hpost Hstatus.
  unfold query_gemini. rewrite Hpost. cbn [mbind result_bind].
  rewrite Hstatus, Z.eqb_refl.
  split; [|split].
  - by intros e ->.
  - intros body -> Hnone. cbn [mbind result_bind].
    by rewrite (getitem_dict_missing _ _ Hnone).
  - intros body -> Hempty. cbn [mbind result_bind].
    by rewrite (getitem_dict _ _ _ Hempty).
Qed.

Lemma comprehension_first_failure {A B} (f : A -> result B)
    (good : list A) (bad : A) (rest : list A) (ys : list B) (e : exn) :
  Forall2 (fun x y => f x = Ok y) good ys ->
  f bad = Err e ->
  comprehension f (good ++ bad :: rest) = Err e.
Proof.
  intros Hgood Hbad.
  induction Hgood as [|x y good ys Hx _ IH]; simpl.
  - by rewrite Hbad.
  - rewrite Hx. cbn [mbind result_bind]. by rewrite IH.
Qed.

(** X9: retrieval gives no partial context: when a match of the list the
    index returns has no [metadata], or metadata without a [text], after
    matches that carry one, [retrieve_similar_chunks] raises the lookup
    error of that match. *)
Theorem retrieve_match_without_text
    (index : gmap string (list float * pyval)) (query : string)
    (embedding_model : list string -> result (list (list float)))
    (top_k : Z) (query_embedding : list (list float)) (results : pyval)
    (good : list pyval) (texts : list string) (bad : pyval)
    (rest : list pyval) (e : exn) :
  embedding_model [query] = Ok query_embedding ->
  index_query index query_embedding top_k = Ok results ->
  py_get results (PStr "matches") (PList []) =
    Ok (PList (good ++ bad :: rest)) ->
  Forall2 match_text good texts ->
  (py_getitem bad (PStr "metadata") = Err e \/
   exists metadata, py_getitem bad (PStr "metadata") = Ok metadata /\
                    py_getitem metadata (PStr "text") = Err e) ->
  retrieve_similar_chunks index query embedding_model top_k = Err e.
Proof.
  intros Hemb Hquery Hmatches Hgood Hbad.
  unfold retrieve_similar_chunks. rewrite Hemb. cbn [mbind result_bind].
  rewrite Hquery. cbn [mbind result_bind]. rewrite Hmatches.
  cbn [mbind result_bind py_iter].
  rewrite (comprehension_first_failure _ good bad rest (map PStr texts) e).
  - done.
  - clear -Hgood. induction Hgood as [|m t good texts (md & Hmd & Ht) _ IH];
      simpl; constructor; [|done].
    rewrite Hmd. cbn [mbind result_bind]. exact Ht.
  - destruct Hbad as [Hbad|(md & Hmd & Hbad)].
    + by rewrite Hbad.
    + rewrite Hmd. cbn [mbind result_bind]. exact Hbad.
Qed.

(** X10: [POST /rag_query] answers a request it cannot read with status
    400, whatever the index holds: a body that is not JSON, a body that is
    not an object, and a body whose [query] is missing or empty each raise
    an [HTTPException] with status 400 that carries the cause. *)
Theorem rag_query_client_errors
    (index : gmap string (list float * pyval)) :
  (forall e : exn,
     rag_query non_string_query index (Err e) = Err (invalid_request e)) /\
  (forall body : pyval, (forall d, body <> PDict d) ->
     rag_query non_string_query index (Ok body) =
     Err (invalid_request (AttributeError "object has no attribute 'get'"))) /\
  (forall d : dict,
     truthy (default (PStr "") (dict_lookup d (PStr "query"))) = false ->
     rag_query non_string_query index (Ok (PDict d)) =
     Err (invalid_request (ValueError "Missing query in the request body."))) /\
  (forall e : exn, http_status (Err (invalid_request e)) = 400).
Proof.
  split; [|split; [|split]].
  - done.
  - intros body Hbody. destruct body; try done. by destruct (Hbody d).
  - intros d Hq. unfold rag_query, rag_query_request, try_except, py_get,
      dict_get. cbn [hashable mbind result_bind].
    destruct (dict_lookup d (PStr "query")) as [q|]; simpl in Hq;
      by rewrite ?Hq.
  - done.
Qed.

Lemma rag_query_request_string (d : dict) (query : string) :
  dict_lookup d (PStr "query") = Some (PStr query) -> query <> "" ->
  rag_query_request (Ok (PDict d)) = Ok (PStr query).
Proof.
  intros Hq Hne. unfold rag_query_request, try_except, py_get, dict_get.
  cbn [hashable mbind result_bind]. rewrite Hq. cbn [truthy].
  destruct (String.eqb_spec query ""); [done|]. done.
Qed.


(** X12: [POST /rag_query] catches nothing after it has read the request:
    for a non-empty string query, what retrieval raises, and what
    [query_gemini] raises on the retrieved context, leaves the endpoint as
    raised, answered with status 500 unless it is an [HTTPException]. *)
Theorem rag_query_propagates (index : gmap string (list float * pyval))
    (d : dict) (query : string) :
  dict_lookup d (PStr "query") = Some (PStr query) -> query <> "" ->
  (forall e : exn,
     retrieve_similar_chunks index query encode default_top_k = Err e ->
     rag_query non_string_query index (Ok (PDict d)) = Err e) /\
  (forall (context : string) (e : exn),
     retrieve_similar_chunks index query encode default_top_k = Ok context ->
     query_gemini query context = Err e ->
     rag_query non_string_query index (Ok (PDict d)) = Err e) /\
  (forall e : exn, not_http e -> http_status (Err e) = 500).
Proof.
  intros Hq Hne. split; [|split].
  - intros e Hret. unfold rag_query.
    rewrite (rag_query_request_string d query Hq Hne).
    cbn [mbind result_bind]. by rewrite Hret.
  - intros context e Hret Hans. unfold rag_query.
    rewrite (rag_query_request_string d query Hq Hne).
    cbn [mbind result_bind]. rewrite Hret. cbn [mbind result_bind].
    by rewrite Hans.
  - intros e. apply not_http_status.
Qed.

End QueryProps.

(** ** Ingestion *)

Section IngestionProps.
Context {PF : PyFloat} {Ext : External}.

(** Past the checks, the loader, the chunker and the embedder, the [try]
    block is the upsert loop. *)
Lemma ingestion_body_upserts (d : dict) (w : World)
    (drive_id object_id : pyval) (documents text_chunks : list string)
    (embeddings : list (list float)) :
  py_get (PDict d) (PStr "drive_id") PNone = Ok drive_id ->
  py_get (PDict d) (PStr "object_id") PNone = Ok object_id ->
  truthy drive_id = true -> truthy object_id = true ->
  onedrive_load drive_id [object_id] = Ok documents ->
  chunk_text (Py.join " " documents) default_chunk_size = Ok text_chunks ->
  embed_text text_chunks = Ok embeddings ->
  process_onedrive_document_body (Ok (PDict d)) w =
  M_bind
    (M_for (fun x => index_upsert [record_of object_id x])
       (enumerate (zip text_chunks embeddings)))
    (fun _ => M_ret ingestion_done) w.
Proof.
  intros Hdrive Hobject Htd Hto Hload Hchunks Hembed.
  unfold process_onedrive_document_body, mbind, M_mbind, mret, M_mret.
  unfold M_bind at 1, lift at 1. unfold M_bind at 1, lift at 1.
  rewrite Hdrive. unfold M_bind at 1, lift at 1. rewrite Hobject.
  rewrite Htd, Hto. cbn [negb orb].
  unfold M_bind at 1, lift at 1. rewrite Hload.
  unfold M_bind at 1, lift at 1. rewrite Hchunks.
  unfold M_bind at 1, lift at 1. rewrite Hembed.
  unfold M_bind.
  rewrite (M_for_ext _ (fun x => index_upsert [record_of object_id x]));
    [done|].
  by intros [i [chunk embedding]].
Qed.

(** The loop when the service accepts every call. *)
Lemma M_for_no_fault {A} (rec : A -> string * list float * pyval)
    (items : list A) (w : World) :
  Forall (fun f => f = None) (take (length items) (faults w)) ->
  M_for (fun x => index_upsert [rec x]) items w =
  (Ok (), {| index := fold_left upsert_one (map rec items) (index w);
             faults := drop (length items) (faults w) |}).
Proof.
  revert w. induction items as [|x items IH]; intros w Hfaults.
  - simpl. unfold M_ret. by destruct w.
  - simpl. unfold M_bind at 1. unfold index_upsert at 1.
    destruct (faults w) as [|[e|] fs] eqn:Hf.
    + rewrite IH; simpl; [by rewrite drop_nil|by rewrite take_nil].
    + simpl in Hfaults. by apply Forall_cons in Hfaults as [? _].
    + simpl in Hfaults. apply Forall_cons in Hfaults as [_ Hfs].
      rewrite IH; simpl; done.
Qed.

(** The index after a sequence of upserts: an id holds the last record
    upserted under it, and what it held before when there is none. *)
Lemma lookup_fold_upsert (rs : list (string * list float * pyval))
    (m : gmap string (list float * pyval)) (id : string) :
  fold_left upsert_one rs m !! id =
  match last_with id rs with
  | Some r => Some r
  | None => m !! id
  end.
Proof.
  revert m. induction rs as [|[[id' v] md] rs IH]; intros m; [done|].
  simpl. rewrite IH. destruct (last_with id rs); [done|].
  destruct (decide (id' = id)) as [->|Hne].
  - apply lookup_insert_eq.
  - by apply lookup_insert_ne.
Qed.

Lemma fold_upsert_twice (rs : list (string * list float * pyval))
    (m : gmap string (list float * pyval)) :
  fold_left upsert_one rs (fold_left upsert_one rs m) =
  fold_left upsert_one rs m.
Proof.
  apply map_eq. intros id. rewrite !lookup_fold_upsert.
  by destruct (last_with id rs).
Qed.

Lemma chunk_records_lookup (object_id : pyval) (text_chunks : list string)
    (embeddings : list (list float)) (k : nat) :
  chunk_records object_id text_chunks embeddings !! k =
  match text_chunks !! k, embeddings !! k with
  | Some chunk, Some embedding =>
      Some (chunk_record object_id k chunk embedding)
  | _, _ => None
  end.
Proof.
  unfold chunk_records.
  change (map (record_of object_id) ?l) with (record_of object_id <$> l).
  rewrite list_lookup_fmap, enumerate_lookup, lookup_zip_with.
  destruct (text_chunks !! k) as [chunk|]; [|done].
  by destruct (embeddings !! k) as [embedding|].
Qed.

Lemma chunk_records_length (object_id : pyval) (text_chunks : list string)
    (embeddings : list (list float)) :
  length (chunk_records object_id text_chunks embeddings) =
  (length text_chunks `min` length embeddings)%nat.
Proof.
  unfold chunk_records, enumerate.
  rewrite length_map, !length_zip_with, length_seq. lia.
Qed.

(** X13: when loading, chunking and embedding succeed and the index
    service accepts the upserts, ingestion answers 200 and every chunk that
    has an embedding is stored under the id of its position with its
    embedding and its text; a chunk past the last embedding is not stored,
    and every id that is not the id of a stored chunk is as before. *)
Theorem ingestion_stores_chunks (d : dict) (w : World)
    (drive_id object_id : pyval) (documents text_chunks : list string)
    (embeddings : list (list float)) :
  py_get (PDict d) (PStr "drive_id") PNone = Ok drive_id ->
  py_get (PDict d) (PStr "object_id") PNone = Ok object_id ->
  truthy drive_id = true -> truthy object_id = true ->
  onedrive_load drive_id [object_id] = Ok documents ->
  chunk_text (Py.join " " documents) default_chunk_size = Ok text_chunks ->
  embed_text text_chunks = Ok embeddings ->
  let n := (length text_chunks `min` length embeddings)%nat in
  Forall (fun f => f = None) (take n (faults w)) ->
  exists index' : gmap string (list float * pyval),
    process_onedrive_document (Ok (PDict d)) w =
      (Ok ingestion_done, {| index := index'; faults := drop n (faults w) |}) /\
    (forall (k : nat) (chunk : string) (embedding : list float),
       text_chunks !! k = Some chunk -> embeddings !! k = Some embedding ->
       index' !! record_id object_id k =
         Some (embedding, PDict [(PStr "text", PStr chunk)])) /\
    (forall k : nat, (n <= k)%nat ->
       index' !! record_id object_id k = index w !! record_id object_id k) /\
    (forall id : string,
       (forall k : nat, (k < n)%nat -> id <> record_id object_id k) ->
       index' !! id = index w !! id).
Proof.
  intros Hdrive Hobject Htd Hto Hload Hchunks Hembed n Hfaults.
  set (rs := chunk_records object_id text_chunks embeddings).
  assert (Hlen : length rs = n) by apply chunk_records_length.
  assert (Hrs : forall k r, rs !! k = Some r ->
            (k < n)%nat /\ r.1.1 = record_id object_id k).
  { intros k r Hk. split.
    - rewrite <- Hlen. by eapply lookup_lt_Some.
    - subst rs. rewrite chunk_records_lookup in Hk.
      destruct (text_chunks !! k), (embeddings !! k); try done.
      by injection Hk as <-. }
  exists (fold_left upsert_one rs (index w)).
  split; [|split; [|split]].
  - unfold process_onedrive_document.
    rewrite (ingestion_body_upserts d w drive_id object_id documents
               text_chunks embeddings) by done.
    assert (Hn : length (enumerate (zip text_chunks embeddings)) = n).
    { unfold enumerate. rewrite !length_zip_with, length_seq. lia. }
    unfold M_bind. rewrite M_for_no_fault; rewrite Hn; done.
  - intros k chunk embedding Hc He.
    apply (fold_upsert_at _ _ k).
    + subst rs. by rewrite chunk_records_lookup, Hc, He.
    + intros k' r Hr Hkk. destruct (Hrs k' r Hr) as [_ ->].
      intros Heq%record_id_inj. done.
  - intros k Hk. apply fold_upsert_other. intros k' r Hr.
    destruct (Hrs k' r Hr) as [Hlt ->]. intros Heq%record_id_inj. lia.
  - intros id Hid. apply fold_upsert_other. intros k' r Hr.
    destruct (Hrs k' r Hr) as [Hlt ->]. intros <-. by apply (Hid k').
Qed.

(** X14: with an index service that accepts every call, ingesting the
    same document a second time succeeds and leaves the index exactly as
    the first ingestion left it: the records are overwritten under the same
    ids, none is added. *)
Theorem ingestion_twice (d : dict) (w : World)
    (drive_id object_id : pyval) (documents text_chunks : list string)
    (embeddings : list (list float)) :
  py_get (PDict d) (PStr "drive_id") PNone = Ok drive_id ->
  py_get (PDict d) (PStr "object_id") PNone = Ok object_id ->
  truthy drive_id = true -> truthy object_id = true ->
  onedrive_load drive_id [object_id] = Ok documents ->
  chunk_text (Py.join " " documents) default_chunk_size = Ok text_chunks ->
  embed_text text_chunks = Ok embeddings ->
  faults w = [] ->
  exists w1 : World,
    process_onedrive_document (Ok (PDict d)) w = (Ok ingestion_done, w1) /\
    process_onedrive_document (Ok (PDict d)) w1 = (Ok ingestion_done, w1).
Proof.
  intros Hdrive Hobject Htd Hto Hload Hchunks Hembed Hfaults.
  set (rs := chunk_records object_id text_chunks embeddings).
  assert (Hrun : forall w0 : World, faults w0 = [] ->
    process_onedrive_document (Ok (PDict d)) w0 =
    (Ok ingestion_done,
     {| index := fold_left upsert_one rs (index w0); faults := [] |})).
  { intros w0 Hw0. unfold process_onedrive_document.
    rewrite (ingestion_body_upserts d w0 drive_id object_id documents
               text_chunks embeddings) by done.
    unfold M_bind. rewrite M_for_no_fault.
    - by rewrite Hw0, drop_nil.
    - by rewrite Hw0, take_nil. }
  eexists. split; [by apply Hrun|].
  rewrite Hrun by done. simpl. by rewrite fold_upsert_twice.
Qed.

(** Whatever the service does, the index after the loop is the index
    before it with the first records upserted, up to some position. *)
Lemma M_for_index {A} (rec : A -> string * list float * pyval)
    (items : list A) (w : World) :
  exists j : nat,
    index (M_for (fun x => index_upsert [rec x]) items w).2 =
    fold_left upsert_one (take j (map rec items)) (index w).
Proof.
  revert w. induction items as [|x items IH]; intros w.
  - by exists 0%nat.
  - simpl. unfold M_bind at 1. unfold index_upsert at 1.
    destruct (faults w) as [|[e|] fs].
    + destruct (IH {| index := fold_left upsert_one [rec x] (index w);
                      faults := tail [] |}) as [j Hj].
      exists (S j). by rewrite Hj.
    + by exists 0%nat.
    + destruct (IH {| index := fold_left upsert_one [rec x] (index w);
                      faults := tail (None :: fs) |}) as [j Hj].
      exists (S j). by rewrite Hj.
Qed.

(** The index after a request is the index before it with records of the
    requested document upserted. *)
Lemma process_index (request_json : result pyval) (w : World) :
  exists rs : list (string * list float * pyval),
    index (process_onedrive_document request_json w).2 =
      fold_left upsert_one rs (index w) /\
    forall r, r ∈ rs ->
      exists (d : dict) (k : nat),
        request_json = Ok (PDict d) /\
        r.1.1 = record_id (default PNone (dict_lookup d (PStr "object_id"))) k.
Proof.
  assert (Hsame :
            exists rs : list (string * list float * pyval),
              index w = fold_left upsert_one rs (index w) /\
              forall r, r ∈ rs ->
                exists (d : dict) (k : nat),
                  request_json = Ok (PDict d) /\
                  r.1.1 = record_id
                    (default PNone (dict_lookup d (PStr "object_id"))) k).
  { exists []. split; [done|]. by intros r Hr%elem_of_nil. }
  unfold process_onedrive_document, process_onedrive_document_body,
    mbind, M_mbind, raise.
  unfold M_bind at 1, lift at 1.
  destruct request_json as [body|e]; [|exact Hsame].
  destruct body; try exact Hsame.
  unfold M_bind at 1, lift at 1.
  cbn [py_get dict_get hashable mbind result_bind].
  unfold M_bind at 1, lift at 1.
  set (drive_id := match dict_lookup d (PStr "drive_id") with
                   | Some v => v | None => PNone end).
  set (object_id := match dict_lookup d (PStr "object_id") with
                    | Some v => v | None => PNone end).
  destruct (negb (truthy drive_id) || negb (truthy object_id));
    [exact Hsame|].
  unfold M_bind at 1, lift at 1.
  destruct (onedrive_load drive_id [object_id]) as [documents|e];
    [|exact Hsame].
  unfold M_bind at 1, lift at 1.
  destruct (chunk_text _ _) as [text_chunks|e];
    [|exact Hsame].
  unfold M_bind at 1, lift at 1.
  destruct (embed_text text_chunks) as [embeddings|e];
    [|exact Hsame].
  unfold M_bind.
  rewrite (M_for_ext _ (fun x => index_upsert [record_of object_id x]));
    [|by intros [i [chunk embedding]]].
  destruct (M_for_index (record_of object_id)
              (enumerate (zip text_chunks embeddings)) w) as [j Hj].
  fold (chunk_records object_id text_chunks embeddings) in Hj.
  exists (take j (chunk_records object_id text_chunks embeddings)).
  split.
  - rewrite <- Hj. by destruct (M_for _ _ w) as [[[]|e] w'].
  - intros r Hr. apply list_elem_of_lookup in Hr as [k Hk].
    apply lookup_take_Some in Hk as [Hk _].
    rewrite chunk_records_lookup in Hk.
    destruct (text_chunks !! k), (embeddings !! k); try done.
    injection Hk as <-. by exists d, k.
Qed.

(** X15: ingestion never removes a record: whatever the request and
    however it ends, every id the index held before it holds afterwards. *)
Theorem ingestion_keeps_ids (request_json : result pyval) (w : World) :
  keeps_ids w (process_onedrive_document request_json w).2.
Proof.
  destruct (process_index request_json w) as (rs & Hindex & _).
  intros id [r Hr]. rewrite Hindex, lookup_fold_upsert, Hr.
  by destruct (last_with id rs).
Qed.

(** X16: ingestion touches only the ids of the requested document:
    whatever the request and however it ends, an id that is not the object
    id of the request followed by an underscore and a chunk position holds
    afterwards what it held before. *)
Theorem ingestion_touches_own_ids (request_json : result pyval) (w : World)
    (id : string) :
  (forall (d : dict) (k : nat),
     request_json = Ok (PDict d) ->
     id <> record_id (default PNone (dict_lookup d (PStr "object_id"))) k) ->
  index (process_onedrive_document request_json w).2 !! id = index w !! id.
Proof.
  intros Hid.
  destruct (process_index request_json w) as (rs & Hindex & Hrs).
  rewrite Hindex. apply fold_upsert_other. intros k r Hk.
  destruct (Hrs r) as (d & k' & Hreq & Hr).
  { apply list_elem_of_lookup. by exists k. }
  rewrite Hr. intros Heq. by apply (Hid d k').
Qed.

(** *** Record ids *)

Lemma pretty_N_char_no_underscore (x : N) :
  Ascii.eqb (pretty_N_char x) "_" = false.
Proof. unfold pretty_N_char. by repeat case_match. Qed.

Lemma pretty_N_go_no_underscore (x : N) (s : string) :
  no_underscore s = true -> no_underscore (pretty_N_go x s) = true.
Proof.
  revert s. induction (N.lt_wf_0 x) as [x _ IH]; intros s Hs.
  assert (x = 0 \/ 0 < x)%N as [->|Hx] by lia.
  - by rewrite pretty_N_go_0.
  - rewrite pretty_N_go_step by done. apply IH.
    + by apply N.div_lt.
    + simpl. by rewrite pretty_N_char_no_underscore.
Qed.

Lemma pretty_nat_no_underscore (n : nat) : no_underscore (pretty n) = true.
Proof.
  unfold pretty, pretty_nat, pretty, pretty_N.
  case_decide; [done|]. by apply pretty_N_go_no_underscore.
Qed.

Lemma no_underscore_app_underscore (a b : string) :
  no_underscore (a +:+ String "_" b) = false.
Proof.
  induction a as [|c a IH]; [done|].
  rewrite string_app_cons. simpl. rewrite IH. apply andb_false_r.
Qed.

(** The last underscore of an id splits it in one way only. *)
Lemma app_underscore_inj (a a' b b' : string) :
  no_underscore b = true -> no_underscore b' = true ->
  a +:+ String "_" b = a' +:+ String "_" b' -> a = a' /\ b = b'.
Proof.
  intros Hb Hb'. revert a'.
  induction a as [|c a IH]; intros [|c' a'];
    rewrite ?string_app_nil_l, ?string_app_cons.
  - by intros [= ->].
  - intros [= <- ->]. by rewrite no_underscore_app_underscore in Hb.
  - intros [= -> <-]. by rewrite no_underscore_app_underscore in Hb'.
  - intros [= -> Heq]. destruct (IH a' Heq) as [-> ->]. done.
Qed.

Lemma record_id_split (object_id object_id' : string) (i i' : nat) :
  record_id (PStr object_id) i = record_id (PStr object_id') i' ->
  object_id = object_id' /\ pretty i = pretty i'.
Proof.
  unfold record_id, py_str. intros Heq.
  change ("_" +:+ pretty i) with (String "_" (pretty i)) in Heq.
  change ("_" +:+ pretty i') with (String "_" (pretty i')) in Heq.
  apply app_underscore_inj in Heq; [done|apply pretty_nat_no_underscore..].
Qed.

(** X17: the record id determines the document and the position, for
    object ids that are strings: two chunks share an id only when they are
    the same position of the same document. *)
Theorem record_id_determines (object_id object_id' : string) (i i' : nat) :
  record_id (PStr object_id) i = record_id (PStr object_id') i' ->
  object_id = object_id' /\ i = i'.
Proof.
  intros [-> Hi]%record_id_split. split; [done|].
  by apply (inj pretty) in Hi.
Qed.

(** X18: ingesting one document leaves the chunks of every other document
    alone, for object ids that are strings: whatever the request for the
    document [object_id] and however it ends, the record ids of another
    document hold afterwards what they held before. *)
Theorem ingestion_leaves_other_documents (d : dict) (w : World)
    (object_id other : string) (k : nat) :
  dict_lookup d (PStr "object_id") = Some (PStr object_id) ->
  other <> object_id ->
  index (process_onedrive_document (Ok (PDict d)) w).2
    !! record_id (PStr other) k =
  index w !! record_id (PStr other) k.
Proof.
  intros Hobject Hother.
  destruct (process_index (Ok (PDict d)) w) as (rs & Hindex & Hrs).
  rewrite Hindex. apply fold_upsert_other. intros j r Hj.
  destruct (Hrs r) as (d' & k' & [= <-] & Hr).
  { apply list_elem_of_lookup. by exists j. }
  rewrite Hr, Hobject. simpl.
  intros Heq. symmetry in Heq.
  by apply record_id_split in Heq as [? _].
Qed.

End IngestionProps.

(** ** Start-up *)

Lemma index_names_elem (indexes : gmap string Startup.IndexSpec)
    (name : string) :
  name ∈ Startup.index_names indexes <-> is_Some (indexes !! name).
Proof.
  unfold Startup.index_names. rewrite list_elem_of_fmap. split.
  - intros ([n spec] & -> & Hin%elem_of_map_to_list). by exists spec.
  - intros [spec Hspec]. exists (name, spec).
    split; [done|]. by apply elem_of_map_to_list.
Qed.

Lemma set_credentials_spec (env : gmap string string) :
  Startup.set_credentials env =
  match env !! "O365_CLIENT_ID", env !! "O365_CLIENT_SECRET" with
  | Some _, Some _ => Ok env
  | _, _ => Err (TypeError "str expected, not NoneType")
  end.
Proof.
  unfold Startup.set_credentials, Startup.environ_set.
  destruct (env !! "O365_CLIENT_ID") as [id|] eqn:Hid;
    cbn [mbind result_bind]; [|done].
  rewrite insert_id by done.
  destruct (env !! "O365_CLIENT_SECRET") as [secret|] eqn:Hsecret; [|done].
  by rewrite insert_id.
Qed.

(** X19: the module cannot start without both OneDrive credentials: with
    [O365_CLIENT_ID] or [O365_CLIENT_SECRET] not set, the assignment to
    [os.environ] raises [TypeError] and start-up ends there, before any
    index is created; with both set, the two assignments succeed and leave
    the environment as it was. *)
Theorem startup_needs_credentials (env : gmap string string)
    (indexes : gmap string Startup.IndexSpec) :
  (env !! "O365_CLIENT_ID" = None \/ env !! "O365_CLIENT_SECRET" = None ->
   Startup.startup env indexes =
   Err (TypeError "str expected, not NoneType")) /\
  (is_Some (env !! "O365_CLIENT_ID") ->
   is_Some (env !! "O365_CLIENT_SECRET") ->
   Startup.set_credentials env = Ok env).
Proof.
  unfold Startup.startup. rewrite set_credentials_spec. split.
  - intros [-> | ->]; [done|].
    by destruct (env !! "O365_CLIENT_ID").
  - by intros [id ->] [secret ->].
Qed.

(** X20: start-up creates the index only when the account has none of
    that name: afterwards an index of the configured name exists, created
    with dimension 384 and the cosine metric when there was none; every
    index the account had, one of the configured name included, keeps the
    configuration it had, whatever its dimension; and starting again
    changes nothing. *)
Theorem startup_ensures_index (env env' : gmap string string)
    (indexes indexes' : gmap string Startup.IndexSpec)
    (settings : Startup.Settings) :
  Startup.startup env indexes = Ok (env', settings, indexes') ->
  Startup.INDEX_NAME settings = default "rag" (env !! "INDEX_NAME") /\
  is_Some (indexes' !! Startup.INDEX_NAME settings) /\
  (forall (name : string) (spec : Startup.IndexSpec),
     indexes !! name = Some spec -> indexes' !! name = Some spec) /\
  (indexes !! Startup.INDEX_NAME settings = None ->
   indexes' !! Startup.INDEX_NAME settings =
   Some {| Startup.dimension := 384; Startup.metric := "cosine";
           Startup.cloud := "aws";
           Startup.region :=
             default "us-east-1" (env !! "PINECONE_ENVIRONMENT") |}) /\
  (forall name : string, name <> Startup.INDEX_NAME settings ->
     indexes' !! name = indexes !! name) /\
  Startup.startup env' indexes' = Ok (env', settings, indexes').
Proof.
  unfold Startup.startup. rewrite !set_credentials_spec.
  destruct (env !! "O365_CLIENT_ID") as [id|] eqn:Hid; [|done].
  destruct (env !! "O365_CLIENT_SECRET") as [secret|] eqn:Hsecret; [|done].
  cbn [mbind result_bind]. intros [= <- <- <-].
  rewrite Hid, Hsecret. cbn [mbind result_bind].
  set (settings := Startup.read_settings env).
  set (name := Startup.INDEX_NAME settings).
  unfold Startup.ensure_index. fold name.
  destruct (bool_decide (name ∈ Startup.index_names indexes)) eqn:Hin.
  - apply bool_decide_eq_true in Hin.
    pose proof (proj1 (index_names_elem indexes name) Hin) as Hsome.
    split; [done|]. split; [done|]. split; [done|].
    split; [intros Hnone; destruct Hsome as [? Hs]; congruence|].
    split; [done|]. by rewrite bool_decide_eq_true_2.
  - apply bool_decide_eq_false in Hin.
    assert (Hnone : indexes !! name = None).
    { destruct (indexes !! name) eqn:E; [|done].
      destruct Hin. apply index_names_elem. by eexists. }
    split; [done|]. split; [by rewrite lookup_insert_eq|].
    split.
    { intros n spec Hn. rewrite lookup_insert_ne; [done|]. congruence. }
    split; [by rewrite lookup_insert_eq|].
    split; [by intros n Hn; apply lookup_insert_ne|].
    rewrite bool_decide_eq_true_2; [done|].
    apply index_names_elem. by rewrite lookup_insert_eq.
Qed.

(** ** The properties at concrete inputs *)

Example chunk_text_three_windows :
  chunk_text "a b  c d e" 4 = Ok ["a b c d"; "c d e"; "e"].
Proof. reflexivity. Qed.

Example chunk_text_negative_size : chunk_text "a b" (-1) = Ok [].
Proof. reflexivity. Qed.

Example binary64_add :
  (a ← py_float (PF := binary64) (PStr "3");
   b ← py_float (PF := binary64) (PStr "5");
   Ok (float_add a b)) = py_float (PF := binary64) (PInt 8).
Proof. vm_compute. reflexivity. Qed.

Lemma ingestion_missing_field_status_witness :
  http_status
    (process_onedrive_document (Ext := Stub.services)
       (Ok (PDict [(PStr "drive_id", PStr "drive")])) Stub.world).1 = 500.
Proof.
  apply (ingestion_missing_field_status (Ext := Stub.services)
           [(PStr "drive_id", PStr "drive")] Stub.world).
  right. reflexivity.
Defined.

Lemma retrieve_joins_texts_witness :
  retrieve_similar_chunks (Ext := Stub.services) ∅ "what is alpha"
    (encode (External := Stub.services)) default_top_k =
  Ok ("alpha beta" +:+ newline +:+ "gamma").
Proof.
  apply (retrieve_joins_texts (Ext := Stub.services) ∅ "what is alpha"
           (encode (External := Stub.services)) default_top_k
           [Stub.embedding_of "what is alpha"]
           (PDict [(PStr "matches",
                    PList [Stub.hit "doc_0" "alpha beta";
                           Stub.hit "doc_1" "gamma"])])
           [Stub.hit "doc_0" "alpha beta"; Stub.hit "doc_1" "gamma"]
           ["alpha beta"; "gamma"]).
  - reflexivity.
  - reflexivity.
  - reflexivity.
  - repeat constructor; eexists; split; reflexivity.
Defined.

Lemma query_gemini_error_witness :
  query_gemini (Ext := Stub.services) "what is alpha" "alpha beta" =
  Ok (PStr "Error: quota exceeded").
Proof.
  apply (query_gemini_error (Ext := Stub.services) "what is alpha" "alpha beta"
           {| response_status_code := 429;
              response_text := "quota exceeded";
              response_json := Err (JSONDecodeError "Expecting value") |}).
  - reflexivity.
  - discriminate.
Defined.

Lemma stub_chunks :
  chunk_text (Py.join " " [Stub.document]) default_chunk_size = Ok Stub.chunks.
Proof. vm_compute. reflexivity. Qed.

(** At the default size as well, a text of fewer words than the chunk
    size, here 300, gives two chunks. *)
Lemma stub_chunks_length :
  Py.len (Py.split Stub.document) = 300 /\ length Stub.chunks = 2%nat.
Proof. vm_compute. split; reflexivity. Qed.

Lemma stub_first_chunk : Stub.chunks !! 0%nat = Some Stub.document.
Proof. vm_compute. reflexivity. Qed.

Lemma ingestion_aborts_at_first_failure_witness :
  exists index' : gmap string (list (float (PyFloat := binary64)) * pyval (PF := binary64)),
    process_onedrive_document (Ext := Stub.services)
      (Ok (PDict Stub.ingestion_request)) Stub.world =
    (Err (internal_error (Ext := Stub.services) (ExternalError "timeout")),
     {| index := index'; faults := [] |}) /\
    index' !! record_id (Ext := Stub.services) (PStr "doc") 0 =
    Some (Stub.embedding_of Stub.document,
          PDict [(PStr "text", PStr Stub.document)]) /\
    index' !! record_id (Ext := Stub.services) (PStr "doc") 1 =
    index Stub.world !! record_id (Ext := Stub.services) (PStr "doc") 1.
Proof.
  destruct (ingestion_aborts_at_first_failure (Ext := Stub.services)
              Stub.ingestion_request Stub.world (PStr "drive") (PStr "doc")
              [Stub.document] Stub.chunks)
    as [_ Hupsert].
  - reflexivity.
  - reflexivity.
  - reflexivity.
  - reflexivity.
  - reflexivity.
  - exact stub_chunks.
  - destruct (Hupsert (map Stub.embedding_of Stub.chunks) 1%nat
                (ExternalError "timeout") [])
      as (index' & Heq & Hbefore & Hafter & _).
    + reflexivity.
    + reflexivity.
    + rewrite (proj2 stub_chunks_length). lia.
    + rewrite length_map, (proj2 stub_chunks_length). lia.
    + exists index'. split; [exact Heq|]. split.
      * apply (Hbefore 0%nat); [lia|exact stub_first_chunk|].
        change (map Stub.embedding_of Stub.chunks)
          with (Stub.embedding_of <$> Stub.chunks).
        by rewrite list_lookup_fmap, stub_first_chunk.
      * apply (Hafter 1%nat). lia.
Defined.

Example datatransformation_example :
  datatransformation (Ok Stub.aggregation_request) =
  Ok {| content :=
          PDict [(PStr "records",
                  PList [Stub.record (PStr "etl")
                           (PFloat (PF := binary64)
                              (S754_finite false 6755399441055744 (-51)));
                         Stub.record (PStr "")
                           (PFloat (PF := binary64)
                              (S754_finite false 7881299347898368 (-50)))])];
        status_code := 200 |}.
Proof. reflexivity. Qed.

Example datatransformation_summary_example :
  datatransformation_summary (Ok Stub.aggregation_request) =
  Ok {| content :=
          PDict [(PStr "etl",
                  PFloat (PF := binary64)
                    (S754_finite false 6755399441055744 (-51)))];
        status_code := 200 |}.
Proof. reflexivity. Qed.

(** A duration that is an infinity: [JSONResponse] raises, and both
    endpoints end with status 500. *)
Example datatransformation_infinite :
  datatransformation (Ok Stub.infinite_request) = Err out_of_range /\
  datatransformation_summary (Ok Stub.infinite_request) = Err out_of_range /\
  http_status (datatransformation (Ok Stub.infinite_request)) = 500.
Proof. split; [reflexivity|]. split; reflexivity. Qed.

(** Two finite durations whose sum overflows. *)
Example datatransformation_overflow :
  datatransformation (Ok Stub.overflow_request) = Err out_of_range /\
  datatransformation_summary (Ok Stub.overflow_request) = Err out_of_range.
Proof. split; reflexivity. Qed.

(** A record named [0]: [/datatransformation] holds its total under [0],
    the summary omits it. *)
Example datatransformation_zero_named :
  datatransformation (Ok Stub.zero_named_request) =
    Ok {| content :=
            PDict [(PStr "records",
                    PList [entry (PInt 0, PFloat (PF := binary64) Stub.three)])];
          status_code := 200 |} /\
  datatransformation_summary (Ok Stub.zero_named_request) =
    Ok {| content := PDict []; status_code := 200 |}.
Proof. split; reflexivity. Qed.

Lemma datatransformation_sums_witness :
  exists duration_map : dict (PF := binary64),
    datatransformation (Ok Stub.aggregation_request) =
      Ok {| content := PDict [(PStr "records", PList (map entry duration_map))];
            status_code := 200 |} /\
    distinct_keys duration_map.
Proof.
  destruct (datatransformation_sums (PF := binary64)
              Stub.aggregation_request Stub.records)
    as (duration_map & Heq & _ & Hdistinct & _).
  - eexists. vm_compute. reflexivity.
  - reflexivity.
  - repeat constructor; eexists; split; reflexivity.
  - exists duration_map. split; [|exact Hdistinct].
    destruct (finite_totals duration_map); [exact Heq|].
    rewrite datatransformation_example in Heq. discriminate Heq.
Defined.

(** C8 as stated fails: for a record whose duration is an infinity the
    endpoint returns no totals. *)
Lemma datatransformation_sums_counterexample :
  ~ (forall (req_body : pyval (PF := binary64)) (records : list pyval),
       py_get req_body (PStr "body") (PList []) = Ok (PList records) ->
       Forall named_record records ->
       exists response : JSONResponse,
         datatransformation (Ok req_body) = Ok response).
Proof.
  intros Hclaim.
  destruct (Hclaim Stub.infinite_request Stub.infinite_records)
    as [response Heq].
  - reflexivity.
  - repeat constructor; eexists; split; reflexivity.
  - rewrite (proj1 datatransformation_infinite) in Heq. discriminate Heq.
Qed.

Lemma summary_omits_unnamed_witness :
  exists duration_map summary_map : dict (PF := binary64),
    datatransformation (Ok Stub.aggregation_request) =
      Ok {| content := PDict [(PStr "records", PList (map entry duration_map))];
            status_code := 200 |} /\
    datatransformation_summary (Ok Stub.aggregation_request) =
      Ok {| content := PDict summary_map; status_code := 200 |} /\
    dict_lookup summary_map (PStr "") = None /\
    is_Some (dict_lookup duration_map (PStr "")).
Proof.
  destruct (summary_omits_unnamed (PF := binary64)
              Stub.aggregation_request Stub.records)
    as (duration_map & summary_map & Hdt & Hsum & Hfin & Hlook & _ & _ &
        Hfalsy & _).
  - eexists. vm_compute. reflexivity.
  - reflexivity.
  - repeat constructor; eexists; split; reflexivity.
  - exists duration_map, summary_map.
    assert (Hall : finite_totals duration_map = true).
    { destruct (finite_totals duration_map); [reflexivity|].
      rewrite datatransformation_example in Hdt. discriminate Hdt. }
    rewrite Hall in Hdt. rewrite (Hfin Hall) in Hsum.
    split; [exact Hdt|]. split; [exact Hsum|]. split.
    + apply (Hlook (PStr "")). reflexivity.
    + destruct (Hfalsy (PStr "")) as (total & Htotal & _);
        [reflexivity|reflexivity|discriminate|].
      rewrite Htotal. by eexists.
Defined.

(** C10 as stated fails: the endpoints also disagree on a record that has
    an application name, the number 0. *)
Lemma summary_omits_unnamed_counterexample :
  ~ (forall (req_body : pyval (PF := binary64)) (records : list pyval)
       (duration_map summary_map : dict),
       py_get req_body (PStr "body") (PList []) = Ok (PList records) ->
       Forall named_record records ->
       datatransformation (Ok req_body) =
         Ok {| content :=
                 PDict [(PStr "records", PList (map entry duration_map))];
               status_code := 200 |} ->
       datatransformation_summary (Ok req_body) =
         Ok {| content := PDict summary_map; status_code := 200 |} ->
       forall k : pyval, exact_key k = true ->
         dict_lookup summary_map k =
         if key_eqb k (PStr "") then None else dict_lookup duration_map k).
Proof.
  intros Hclaim.
  specialize (Hclaim Stub.zero_named_request Stub.zero_named_records
                [(PInt 0, PFloat (PF := binary64) Stub.three)] []).
  specialize (Hclaim eq_refl).
  assert (Hnamed : Forall named_record Stub.zero_named_records)
    by (repeat constructor; eexists; split; reflexivity).
  specialize (Hclaim Hnamed (proj1 datatransformation_zero_named)
                (proj2 datatransformation_zero_named) (PInt 0) eq_refl).
  discriminate Hclaim.
Qed.

(** ** The further properties at concrete inputs *)

Lemma chunk_text_count_witness :
  exists chunks, chunk_text "a b c d e" 4 = Ok chunks /\
    Z.of_nat (length chunks) = 3.
Proof.
  destruct (chunk_text_count "a b c d e" 4 ltac:(lia)) as (chunks & Heq & Hlen).
  exists chunks. split; [exact Heq|exact Hlen].
Defined.

Lemma chunk_text_normalised_witness :
  Py.join " " (Py.split "c d e") = "c d e".
Proof.
  apply (chunk_text_normalised ("a b" +:+ newline +:+ "c   d e") 4
           ["a b c d"; "c d e"; "e"] 1 "c d e").
  - lia.
  - reflexivity.
  - reflexivity.
Defined.

Lemma chunk_text_last_redundant_witness :
  Py.split "e" = drop (Z.to_nat (4 / 2)) (Py.split "c d e").
Proof.
  apply (chunk_text_last_redundant "a b c d e" 4
           ["a b c d"; "c d e"; "e"] 1 "c d e" "e").
  - lia.
  - reflexivity.
  - reflexivity.
  - reflexivity.
  - reflexivity.
Defined.

Lemma aggregation_malformed_record_witness :
  http_status (PF := binary64)
    (datatransformation (Ok Stub2.malformed_request)) = 500.
Proof.
  destruct (aggregation_malformed_record (PF := binary64)
              Stub2.malformed_request
              [Stub.record (PStr "etl") (PStr "3")] [] (PInt 7))
    as [(e & _ & Hstatus) _].
  - reflexivity.
  - discriminate.
  - exact Hstatus.
Defined.

Lemma datatransformation_order_witness :
  exists duration_map : dict (PF := binary64),
    map fst duration_map = [PStr "etl"; PStr ""].
Proof.
  destruct (datatransformation_order (PF := binary64)
              Stub.aggregation_request Stub.records
              {| content :=
                   PDict [(PStr "records",
                     PList [Stub.record (PStr "etl")
                              (PFloat (PF := binary64)
                                 (S754_finite false 6755399441055744 (-51)));
                            Stub.record (PStr "")
                              (PFloat (PF := binary64)
                                 (S754_finite false 7881299347898368 (-50)))])];
                 status_code := 200 |})
    as (duration_map & _ & Hkeys & _).
  - reflexivity.
  - reflexivity.
  - exists duration_map. exact Hkeys.
Defined.

Lemma summary_accepts_bare_list_witness :
  datatransformation_summary (PF := binary64) (Ok (PList Stub.records)) =
  datatransformation_summary (Ok Stub.aggregation_request).
Proof.
  apply (summary_accepts_bare_list (PF := binary64)
           Stub.aggregation_request Stub.records).
  reflexivity.
Defined.

Lemma query_gemini_first_candidate_witness :
  query_gemini (Ext := Stub2.services Stub2.two_hits Stub2.answered)
    "what is alpha" "alpha beta" = Ok (PStr "Alpha comes first.").
Proof.
  apply (query_gemini_first_candidate
           (Ext := Stub2.services Stub2.two_hits Stub2.answered)
           "what is alpha" "alpha beta" Stub2.answered
           Stub2.answer_body Stub2.answer_candidate Stub2.answer_content
           Stub2.answer_part [] []); reflexivity.
Defined.

Lemma query_gemini_unusable_body_witness :
  query_gemini (Ext := Stub2.services Stub2.two_hits Stub2.no_candidate)
    "what is alpha" "alpha beta" =
  Err (IndexError "list index out of range").
Proof.
  destruct (query_gemini_unusable_body
              (Ext := Stub2.services Stub2.two_hits Stub2.no_candidate)
              "what is alpha" "alpha beta" Stub2.no_candidate)
    as (_ & _ & Hempty).
  - reflexivity.
  - reflexivity.
  - apply (Hempty [(PStr "candidates", PList [])]); reflexivity.
Defined.

Lemma retrieve_match_without_text_witness :
  retrieve_similar_chunks
    (Ext := Stub2.services Stub2.bare_hit Stub2.answered) ∅ "what is alpha"
    (encode (External := Stub2.services Stub2.bare_hit Stub2.answered))
    default_top_k = Err (KeyError "key").
Proof.
  apply (retrieve_match_without_text
           (Ext := Stub2.services Stub2.bare_hit Stub2.answered)
           ∅ "what is alpha"
           (encode (External := Stub2.services Stub2.bare_hit Stub2.answered))
           default_top_k [Stub.embedding_of "what is alpha"] Stub2.bare_hit
           [Stub.hit "doc_0" "alpha beta"] ["alpha beta"]
           (PDict [(PStr "id", PStr "doc_1")]) []).
  - reflexivity.
  - reflexivity.
  - reflexivity.
  - repeat constructor; eexists; split; reflexivity.
  - left. reflexivity.
Defined.

Lemma rag_query_client_errors_witness :
  http_status
    (rag_query (Ext := Stub2.services Stub2.two_hits Stub2.answered)
       Stub2.non_string_query ∅ (Ok (PDict [(PStr "query", PStr "")]))) = 400.
Proof.
  destruct (rag_query_client_errors
              (Ext := Stub2.services Stub2.two_hits Stub2.answered)
              Stub2.non_string_query ∅)
    as (_ & _ & Hmissing & Hstatus).
  rewrite (Hmissing [(PStr "query", PStr "")]).
  - apply Hstatus.
  - reflexivity.
Defined.


Lemma rag_query_propagates_witness :
  rag_query (Ext := Stub2.services Stub2.bare_hit Stub2.answered)
    Stub2.non_string_query ∅ (Ok (PDict Stub2.query_request)) =
  Err (KeyError "key").
Proof.
  destruct (rag_query_propagates
              (Ext := Stub2.services Stub2.bare_hit Stub2.answered)
              Stub2.non_string_query ∅ Stub2.query_request "what is alpha")
    as [Hretrieval _].
  - reflexivity.
  - discriminate.
  - apply Hretrieval. reflexivity.
Defined.

Lemma stub2_chunks :
  chunk_text (Py.join " " ["alpha beta gamma"]) default_chunk_size =
  Ok ["alpha beta gamma"].
Proof. vm_compute. reflexivity. Qed.

Lemma ingestion_stores_chunks_witness :
  exists index' : gmap string (list (float (PyFloat := binary64)) * pyval (PF := binary64)),
    process_onedrive_document
      (Ext := Stub2.services Stub2.two_hits Stub2.answered)
      (Ok (PDict Stub.ingestion_request)) Stub2.healthy =
    (Ok (ingestion_done (PF := binary64)),
     {| index := index'; faults := [] |}) /\
    index' !! record_id
                (Ext := Stub2.services Stub2.two_hits Stub2.answered)
                (PStr "doc") 0 =
    Some (Stub.embedding_of "alpha beta gamma",
          PDict [(PStr "text", PStr "alpha beta gamma")]).
Proof.
  destruct (ingestion_stores_chunks
              (Ext := Stub2.services Stub2.two_hits Stub2.answered)
              Stub.ingestion_request Stub2.healthy (PStr "drive") (PStr "doc")
              ["alpha beta gamma"] ["alpha beta gamma"]
              [Stub.embedding_of "alpha beta gamma"])
    as (index' & Heq & Hstored & _).
  - reflexivity.
  - reflexivity.
  - reflexivity.
  - reflexivity.
  - reflexivity.
  - exact stub2_chunks.
  - reflexivity.
  - constructor.
  - exists index'. split; [exact Heq|].
    apply (Hstored 0%nat); reflexivity.
Defined.

Lemma ingestion_twice_witness :
  exists w1 : World (PF := binary64),
    process_onedrive_document
      (Ext := Stub2.services Stub2.two_hits Stub2.answered)
      (Ok (PDict Stub.ingestion_request)) Stub2.healthy =
    (Ok (ingestion_done (PF := binary64)), w1) /\
    process_onedrive_document
      (Ext := Stub2.services Stub2.two_hits Stub2.answered)
      (Ok (PDict Stub.ingestion_request)) w1 =
    (Ok (ingestion_done (PF := binary64)), w1).
Proof.
  apply (ingestion_twice
           (Ext := Stub2.services Stub2.two_hits Stub2.answered)
           Stub.ingestion_request Stub2.healthy (PStr "drive") (PStr "doc")
           ["alpha beta gamma"] ["alpha beta gamma"]
           [Stub.embedding_of "alpha beta gamma"]).
  - reflexivity.
  - reflexivity.
  - reflexivity.
  - reflexivity.
  - reflexivity.
  - exact stub2_chunks.
  - reflexivity.
  - reflexivity.
Defined.

Lemma ingestion_touches_own_ids_witness :
  index
    (process_onedrive_document
       (Ext := Stub2.services Stub2.two_hits Stub2.answered)
       (Ok (PDict Stub.ingestion_request)) Stub2.healthy).2 !! "doc" =
  index Stub2.healthy !! "doc".
Proof.
  apply (ingestion_touches_own_ids
           (Ext := Stub2.services Stub2.two_hits Stub2.answered)
           (Ok (PDict Stub.ingestion_request)) Stub2.healthy "doc").
  intros d k [= <-]. unfold record_id. simpl. discriminate.
Defined.

Lemma record_id_determines_witness :
  "doc" = "doc" /\ 1%nat = 1%nat.
Proof.
  apply (record_id_determines
           (Ext := Stub2.services Stub2.two_hits Stub2.answered)
           "doc" "doc" 1 1).
  reflexivity.
Defined.

Lemma ingestion_leaves_other_documents_witness :
  index
    (process_onedrive_document
       (Ext := Stub2.services Stub2.two_hits Stub2.answered)
       (Ok (PDict Stub.ingestion_request)) Stub2.healthy).2
    !! record_id (Ext := Stub2.services Stub2.two_hits Stub2.answered)
         (PStr "other") 0 =
  index Stub2.healthy
    !! record_id (Ext := Stub2.services Stub2.two_hits Stub2.answered)
         (PStr "other") 0.
Proof.
  apply (ingestion_leaves_other_documents
           (Ext := Stub2.services Stub2.two_hits Stub2.answered)
           Stub.ingestion_request Stub2.healthy "doc" "other" 0).
  - reflexivity.
  - discriminate.
Defined.

Lemma startup_needs_credentials_witness :
  Startup.startup ∅ ∅ = Err (TypeError "str expected, not NoneType") /\
  Startup.set_credentials Stub2.environment = Ok Stub2.environment.
Proof.
  split.
  - apply (proj1 (startup_needs_credentials ∅ ∅)). left. reflexivity.
  - apply (proj2 (startup_needs_credentials Stub2.environment ∅)).
    + eexists. reflexivity.
    + eexists. reflexivity.
Defined.

Lemma stub2_startup :
  Startup.startup Stub2.environment ∅ =
  Ok (Stub2.environment, Startup.read_settings Stub2.environment,
      {["rag" := {| Startup.dimension := 384; Startup.metric := "cosine";
                    Startup.cloud := "aws"; Startup.region := "us-east-1" |}]}).
Proof. vm_compute. reflexivity. Qed.

Lemma startup_ensures_index_witness :
  Startup.startup Stub2.environment
    {["rag" := {| Startup.dimension := 384; Startup.metric := "cosine";
                  Startup.cloud := "aws"; Startup.region := "us-east-1" |}]} =
  Ok (Stub2.environment, Startup.read_settings Stub2.environment,
      {["rag" := {| Startup.dimension := 384; Startup.metric := "cosine";
                    Startup.cloud := "aws"; Startup.region := "us-east-1" |}]}).
Proof.
  apply (startup_ensures_index Stub2.environment Stub2.environment ∅).
  exact stub2_startup.
Defined.
